(** * node-cron-best-practices: the retry-wrapped executor and the
      registration entry point of [cron-jobs/index.ts]

    The development embeds [executeJob] and [registerAllCronJobs] over an
    explicit model of the three collaborators the module talks to: the
    console, the timer queue behind [setTimeout], and the table of
    bindings held by [cron.schedule].

    Conventions.
    - JavaScript numbers that the module handles ([retries], [attempt],
      the 10000 ms delay) are integers well inside the exactly
      representable range; they are modelled as [Z].  An optional number
      is an [option Z]; [None] is [undefined].
    - A task body is an opaque asynchronous action.  It is modelled as a
      function of the state [Env] of whatever the task touches; a run
      yields the next state, the time the run took and either normal
      completion or the error it rejected with.
    - Every effect on a collaborator is appended, with the clock value at
      which it happens, to the [trace] of the world.  What a task body
      prints on its own belongs to [Env], not to the trace.
    - One invocation of the executor runs from its first statement to the
      end of its [try]/[catch] as a single step of the event loop. *)

From Stdlib Require Import ZArith List String Ascii Bool Lia DecimalString.
Import ListNotations.
Open Scope Z_scope.

(** The value caught by [catch (error)]. *)
Definition Error := string.

(* ------------------------------------------------------------------ *)
(** ** JavaScript numbers used as conditions *)

Module Js.

(** [retries && ...]: [undefined] and [0] are falsy, every other
    integer is truthy. *)
Definition truthy (n : option Z) : bool :=
  match n with
  | Some v => negb (v =? 0)
  | None => false
  end.

(** [attempt < retries]; a comparison with [undefined] is false. *)
Definition lt (a : Z) (b : option Z) : bool :=
  match b with
  | Some v => a <? v
  | None => false
  end.

(** [${n}] in a template literal, for an integer [n]. *)
Definition to_string (n : Z) : string :=
  NilZero.string_of_int (Z.to_int n).

End Js.

(* ------------------------------------------------------------------ *)
(** ** Data model *)

(** The lines the module prints, by template. *)
Inductive Line :=
| Executing (name : string) (attempt : Z)
    (* [Cron] Executing job: ${name}, Attempt: ${attempt} *)
| ExecutedSuccessfully (name : string)
    (* [Cron] Job "${name}" executed successfully. *)
| FailedOnAttempt (name : string) (attempt : Z) (error : Error)
    (* [Cron] Job "${name}" failed on attempt ${attempt}: <error> *)
| Retrying (name : string)
    (* [Cron] Retrying job "${name}" in 10 seconds... *)
| FailedAfter (name : string) (attempt : Z)
    (* [Cron] Job "${name}" failed after ${attempt} attempts. Skipping. *)
| ScheduledJob (name : string) (schedule : string).
    (* [Cron] Scheduled job: "${name}" (${schedule}) *)

(** The double-quote character of the templates. *)
Definition dquote : string := String "034"%char EmptyString.

(** The text of a line.  The error of the third template is the second
    argument of [console.error]; the console prints it after a space. *)
Definition render (l : Line) : string :=
  match l with
  | Executing name attempt =>
      "[Cron] Executing job: " ++ name ++ ", Attempt: " ++ Js.to_string attempt
  | ExecutedSuccessfully name =>
      "[Cron] Job " ++ dquote ++ name ++ dquote ++ " executed successfully."
  | FailedOnAttempt name attempt error =>
      "[Cron] Job " ++ dquote ++ name ++ dquote ++ " failed on attempt "
        ++ Js.to_string attempt ++ ":" ++ " " ++ error
  | Retrying name =>
      "[Cron] Retrying job " ++ dquote ++ name ++ dquote ++ " in 10 seconds..."
  | FailedAfter name attempt =>
      "[Cron] Job " ++ dquote ++ name ++ dquote ++ " failed after "
        ++ Js.to_string attempt ++ " attempts. Skipping."
  | ScheduledJob name schedule =>
      "[Cron] Scheduled job: " ++ dquote ++ name ++ dquote
        ++ " (" ++ schedule ++ ")"
  end%string.

(** How a statement sequence, or the promise of an [async] function,
    ends: normally with a value, or with a thrown error. *)
Inductive Completion (A : Type) :=
| Normal (a : A)
| Throw (e : Error).
Arguments Normal {A} a.
Arguments Throw {A} e.

Section Scheduler.

(** State of the resources the task bodies act on. *)
Context {Env : Type}.

(** The matching rule of the scheduling primitive: does the cron
    expression match the wall-clock moment? *)
Variable cron_matches : string -> Z -> bool.

(** Outcome of awaiting [task()]. *)
Record Settled := mkSettled {
  env_after : Env;            (* state the run leaves behind *)
  elapsed : N;                (* milliseconds until the promise settles *)
  rejection : option Error    (* [None]: fulfilled; [Some e]: rejected with e *)
}.

(** [() => Promise<void>] *)
Definition Task := Env -> Settled.

(** [type JobParams] (and [type CronJob] of jobs.ts, which has the same
    fields). *)
Record JobParams := mkJob {
  name : string;
  slug : string;
  schedule : string;
  task : Task;
  retries : option Z
}.

(** [type JobExecutionParams] *)
Record JobExecutionParams := mkExec {
  exec_name : string;
  exec_task : Task;
  exec_retries : option Z
}.

(** The two arrow functions of the module, as closures: the variables
    they capture.
    - [RetryCallback name task retries attempt] is
      [() => executeJob({ name, task, retries }, attempt + 1)];
    - [CronCallback name task retries] is
      [async () => { await executeJob({ name, task, retries }); }]. *)
Inductive Callback :=
| RetryCallback (name : string) (task : Task) (retries : option Z) (attempt : Z)
| CronCallback (name : string) (task : Task) (retries : option Z).

(** Calls into the collaborators. *)
Inductive Effect :=
| ConsoleLog (l : Line)
| ConsoleError (l : Line)
| SetTimeout (cb : Callback) (ms : Z)
| CronSchedule (expression : string) (cb : Callback).

(** A pending timer. *)
Record Timer := mkTimer {
  due : Z;
  handler : Callback
}.

(** A binding held by the scheduling primitive. *)
Record CronBinding := mkBinding {
  expression : string;
  on_tick : Callback
}.

Record World := mkWorld {
  now : Z;                          (* clock, in milliseconds *)
  env : Env;
  trace : list (Z * Effect);        (* effects so far, oldest first *)
  timers : list Timer;              (* pending timers, earliest first *)
  cron_table : list CronBinding     (* bindings, in registration order *)
}.

(* ---------------------------------------------------------------- *)
(** ** Computations that may throw *)

Definition M (A : Type) := World -> Completion A * World.

Definition ret {A} (a : A) : M A := fun w => (Normal a, w).

Definition bind {A B} (m : M A) (k : A -> M B) : M B :=
  fun w =>
    match m w with
    | (Normal a, w') => k a w'
    | (Throw e, w') => (Throw e, w')
    end.

(** [try { body } catch (error) { handler }] *)
Definition try_catch {A} (body : M A) (handler : Error -> M A) : M A :=
  fun w =>
    match body w with
    | (Normal a, w') => (Normal a, w')
    | (Throw e, w') => handler e w'
    end.

Local Notation "m1 ;; m2" := (bind m1 (fun _ => m2))
  (at level 100, m2 at level 200, right associativity).

(** [xs.forEach(f)] *)
Fixpoint forEach {A} (xs : list A) (f : A -> M unit) : M unit :=
  match xs with
  | [] => ret tt
  | x :: rest => f x ;; forEach rest f
  end.

(* ---------------------------------------------------------------- *)
(** ** The collaborators *)

Definition emit (e : Effect) : M unit :=
  fun w =>
    (Normal tt,
     mkWorld (now w) (env w) (trace w ++ [(now w, e)]) (timers w) (cron_table w)).

Definition console_log (l : Line) : M unit := emit (ConsoleLog l).
Definition console_error (l : Line) : M unit := emit (ConsoleError l).

(** Stable insertion by due time: a timer runs after those that are due
    no later than it. *)
Fixpoint insert_timer (t : Timer) (ts : list Timer) : list Timer :=
  match ts with
  | [] => [t]
  | u :: rest =>
      if due t <? due u then t :: u :: rest else u :: insert_timer t rest
  end.

(** [setTimeout(cb, ms)] *)
Definition setTimeout (cb : Callback) (ms : Z) : M unit :=
  emit (SetTimeout cb ms) ;;
  fun w =>
    (Normal tt,
     mkWorld (now w) (env w) (trace w)
             (insert_timer (mkTimer (now w + ms) cb) (timers w))
             (cron_table w)).

(** Modelled from the spec: the scheduling primitive [cron.schedule] of
    the node-cron package, which is not part of the repository.  It
    accepts a cron expression string and a zero-argument callback and
    keeps the pair; the callback is invoked each time wall-clock time
    matches the expression (see [tick]).  The registry is taken to hold
    expressions of the 5-field grammar the primitive accepts. *)
Definition cron_schedule (expr : string) (cb : Callback) : M unit :=
  emit (CronSchedule expr cb) ;;
  fun w =>
    (Normal tt,
     mkWorld (now w) (env w) (trace w) (timers w)
             (cron_table w ++ [mkBinding expr cb])).

(** [await task()]: the task runs on the current state, the clock moves
    by the time it took, and a rejection is thrown at the [await]. *)
Definition await (t : Task) : M unit :=
  fun w =>
    let r := t (env w) in
    let w' := mkWorld (now w + Z.of_N (elapsed r)) (env_after r)
                      (trace w) (timers w) (cron_table w) in
    match rejection r with
    | None => (Normal tt, w')
    | Some e => (Throw e, w')
    end.

(* ---------------------------------------------------------------- *)
(** ** cron-jobs/index.ts *)

(** [executeJob], lines 32-52. *)
Definition executeJob (params : JobExecutionParams) (attempt : Z) : M unit :=
  let '(mkExec name task retries) := params in
  try_catch
    (console_log (Executing name attempt) ;;
     await task ;;
     console_log (ExecutedSuccessfully name))
    (fun error =>
       console_error (FailedOnAttempt name attempt error) ;;
       if Js.truthy retries && Js.lt attempt retries then
         (console_log (Retrying name) ;;
          setTimeout (RetryCallback name task retries attempt) 10000)
       else
         console_error (FailedAfter name attempt)).

(** The call a closure makes when it is invoked: the arguments it
    passes to [executeJob].  The second closure passes no [attempt], so
    the default [attempt = 1] applies. *)
Definition callback_args (cb : Callback) : JobExecutionParams * Z :=
  match cb with
  | RetryCallback name task retries attempt =>
      (mkExec name task retries, attempt + 1)
  | CronCallback name task retries =>
      (mkExec name task retries, 1)
  end.

Definition run_callback (cb : Callback) : M unit :=
  executeJob (fst (callback_args cb)) (snd (callback_args cb)).

(** [import jobs from './jobs'] *)
Variable jobs : list JobParams.

(** [registerAllCronJobs], lines 58-65. *)
Definition registerAllCronJobs : M unit :=
  forEach jobs (fun '(mkJob name _ schedule task retries) =>
    cron_schedule schedule (CronCallback name task retries) ;;
    console_log (ScheduledJob name schedule)).

(* ---------------------------------------------------------------- *)
(** ** The event loop *)

(** The timer phase of the host's event loop.  The earliest pending
    timer fires: the clock reaches its due time (or is already past it),
    and its callback is called.  The promise the callback returns is
    dropped. *)
Definition fire (t : Timer) (rest : list Timer) (w : World) : World :=
  snd (run_callback (handler t)
         (mkWorld (Z.max (now w) (due t)) (env w) (trace w) rest (cron_table w))).

(** Run pending timers, earliest first, at most [fuel] of them. *)
Fixpoint run_timers (fuel : nat) (w : World) : World :=
  match fuel with
  | O => w
  | S fuel' =>
      match timers w with
      | [] => w
      | t :: rest => run_timers fuel' (fire t rest w)
      end
  end.

(** Modelled from the spec: the firing rule of the scheduling primitive.
    At moment [t] it invokes the callback of every binding whose
    expression matches [t], in registration order. *)
Definition due_callbacks (t : Z) (table : list CronBinding) : list Callback :=
  map on_tick (filter (fun b => cron_matches (expression b) t) table).

Definition invoke_all (cbs : list Callback) (w : World) : World :=
  fold_left (fun w cb => snd (run_callback cb w)) cbs w.

(** One scheduled tick at wall-clock moment [t]. *)
Definition tick (t : Z) (w : World) : World :=
  invoke_all (due_callbacks t (cron_table w))
    (mkWorld (Z.max (now w) t) (env w) (trace w) (timers w) (cron_table w)).

(* ---------------------------------------------------------------- *)
(** ** Observations *)

(** The effects performed between two worlds. *)
Definition since (w0 w1 : World) : list (Z * Effect) :=
  skipn (List.length (trace w0)) (trace w1).

(** Executor invocations that began: job name and attempt number of
    every start message. *)
Definition started (tr : list (Z * Effect)) : list (string * Z) :=
  flat_map (fun x => match snd x with
                     | ConsoleLog (Executing n a) => [(n, a)]
                     | _ => []
                     end) tr.

(** Job names of the success messages. *)
Definition succeeded (tr : list (Z * Effect)) : list string :=
  flat_map (fun x => match snd x with
                     | ConsoleLog (ExecutedSuccessfully n) => [n]
                     | _ => []
                     end) tr.

(** Job name and attempt count of every final-failure message. *)
Definition gave_up (tr : list (Z * Effect)) : list (string * Z) :=
  flat_map (fun x => match snd x with
                     | ConsoleError (FailedAfter n a) => [(n, a)]
                     | _ => []
                     end) tr.

(** The calls to [setTimeout]: callback and delay. *)
Definition timeouts (tr : list (Z * Effect)) : list (Callback * Z) :=
  flat_map (fun x => match snd x with
                     | SetTimeout cb ms => [(cb, ms)]
                     | _ => []
                     end) tr.

(** Everything written to the console, on either stream. *)
Definition printed (tr : list (Z * Effect)) : list Line :=
  flat_map (fun x => match snd x with
                     | ConsoleLog l | ConsoleError l => [l]
                     | _ => []
                     end) tr.

(** The bindings handed to the scheduling primitive. *)
Definition bound (tr : list (Z * Effect)) : list CronBinding :=
  flat_map (fun x => match snd x with
                     | CronSchedule expr cb => [mkBinding expr cb]
                     | _ => []
                     end) tr.

(** [a, a+1, ..., a+n-1] *)
Fixpoint attempts_from (a : Z) (n : nat) : list Z :=
  match n with
  | O => []
  | S n' => a :: attempts_from (a + 1) n'
  end.

(** How many invocations of the executor for job [n] began. *)
Definition starts_of (n : string) (tr : list (Z * Effect)) : nat :=
  List.length (filter (fun x => String.eqb (fst x) n) (started tr)).

(** *** Successive runs of a task *)

(** The state the [i]-th run (counting from 0) of a task starts from,
    when nothing else touches the state in between. *)
Fixpoint env_before (t : Task) (e : Env) (i : nat) : Env :=
  match i with
  | O => e
  | S i' => env_before t (env_after (t e)) i'
  end.

(** Does the [i]-th run reject? *)
Definition rejects (t : Task) (e : Env) (i : nat) : bool :=
  match rejection (t (env_before t e i)) with
  | Some _ => true
  | None => false
  end.

(** The moment at which the task of [p], begun in [w], settles. *)
Definition settled_at (p : JobExecutionParams) (w : World) : Z :=
  now w + Z.of_N (elapsed (exec_task p (env w))).

(** *** Retry chains *)

(** Attempt [a] failed at some moment, a timer re-invoking the executor
    was set at that moment with delay [ms], and attempt [a + 1] began
    exactly [ms] later. *)
Definition retried_after (p : JobExecutionParams) (a ms : Z)
           (tr : list (Z * Effect)) : Prop :=
  exists tm err,
    In (tm, ConsoleError (FailedOnAttempt (exec_name p) a err)) tr /\
    In (tm, SetTimeout (RetryCallback (exec_name p) (exec_task p)
                                      (exec_retries p) a) ms) tr /\
    In (tm + ms, ConsoleLog (Executing (exec_name p) (a + 1))) tr.

(** The world in which the retry of attempt [a] begins: attempt [a] has
    run, and the event loop has taken its timer, ten seconds later. *)
Definition before_retry (p : JobExecutionParams) (a : Z) (w : World) : World :=
  let w1 := snd (executeJob p a w) in
  mkWorld (now w1 + 10000) (env w1) (trace w1) [] (cron_table w1).

(** The world in which attempt [a + k] begins, after the [k] attempts
    [a, ..., a + k - 1] were each retried. *)
Fixpoint after_retries (p : JobExecutionParams) (a : Z) (w : World)
         (k : nat) : World :=
  match k with
  | O => w
  | S k' => after_retries p (a + 1) (before_retry p a w) k'
  end.

(** An invocation of the executor: its two arguments. *)
Definition Invocation := (JobExecutionParams * Z)%type.

(** [retry_of q q']: in some world, invocation [q] sets a timer whose
    callback makes invocation [q']. *)
Definition retry_of (q q' : Invocation) : Prop :=
  exists w tm cb ms,
    In (tm, SetTimeout cb ms)
       (since w (snd (executeJob (fst q) (snd q) w))) /\
    callback_args cb = q'.

(** [retry_chain k q q']: [q'] is reached from [q] by [k] successive
    retry re-invocations. *)
Inductive retry_chain : nat -> Invocation -> Invocation -> Prop :=
| chain_here (q : Invocation) : retry_chain O q q
| chain_next (k : nat) (q q' q'' : Invocation) :
    retry_of q q' -> retry_chain k q' q'' -> retry_chain (S k) q q''.

(** The bindings [registerAllCronJobs] creates for a registry. *)
Definition bindings_of (js : list JobParams) : list CronBinding :=
  map (fun j => mkBinding (schedule j)
                          (CronCallback (name j) (task j) (retries j))) js.

(** The effects of registering a registry at clock value [t]: for each
    job, the call to [cron.schedule] and then the line of line 63. *)
Definition registration_effects (js : list JobParams) (t : Z)
  : list (Z * Effect) :=
  flat_map (fun j =>
              [ (t, CronSchedule (schedule j)
                      (CronCallback (name j) (task j) (retries j)));
                (t, ConsoleLog (ScheduledJob (name j) (schedule j))) ]) js.

(** Job name and attempt number of the invocation a callback makes. *)
Definition invoked (cb : Callback) : string * Z :=
  (exec_name (fst (callback_args cb)), snd (callback_args cb)).

(** A process in which nothing has happened yet. *)
Definition fresh (t0 : Z) (e : Env) : World := mkWorld t0 e [] [] [].

End Scheduler.

Arguments Settled Env : clear implicits.
Arguments Task Env : clear implicits.
Arguments JobParams Env : clear implicits.
Arguments JobExecutionParams Env : clear implicits.
Arguments Callback Env : clear implicits.
Arguments Effect Env : clear implicits.
Arguments Timer Env : clear implicits.
Arguments CronBinding Env : clear implicits.
Arguments World Env : clear implicits.
Arguments Invocation Env : clear implicits.
Arguments M Env A : clear implicits.

(* ------------------------------------------------------------------ *)
(** ** cron-jobs/jobs.ts *)

Module Jobs.

(** What the job bodies print. *)
Definition Console := list string.

(** The body shared by the seven jobs:
    [try { console.log(first); console.log(second); }
     catch (error) { console.error(...); throw error; }].
    Neither statement of the [try] block throws, so the promise is
    fulfilled. *)
Definition body (first second : string) : Task Console :=
  fun out => mkSettled (out ++ [first; second]) 0 None.

Definition jobs : list (JobParams Console) :=
  [ mkJob "Process Pending Payments" "process-pending-payments" "0 1 * * *"
      (body "[Job] Processing pending payments..."
            "[Job] Payments processed successfully.")
      (Some 3);
    mkJob "Expire Inactive Subscriptions" "expire-inactive-subscriptions"
      "0 2 * * *"
      (body "[Job] Expiring inactive subscriptions..."
            "[Job] Expired inactive subscriptions.")
      None;
    mkJob "Assign Support Agents to New Cases" "assign-support-agents"
      "0 0,6,12,18 * * *"
      (body "[Job] Assigning support agents..."
            "[Job] Support agents assigned.")
      (Some 2);
    mkJob "Generate Daily Reports" "generate-daily-reports" "30 3 * * *"
      (body "[Job] Generating daily reports..."
            "[Job] Daily reports generated.")
      None;
    mkJob "Update User Status" "update-user-status" "30 0,12 * * *"
      (body "[Job] Updating user statuses..."
            "[Job] User statuses updated.")
      (Some 3);
    mkJob "Sync External Data Sources" "sync-external-data" "0 4 * * *"
      (body "[Job] Syncing external data sources..."
            "[Job] External data sync complete.")
      None;
    mkJob "Clear Old Logs and Cache" "clear-old-logs" "0 5 * * *"
      (body "[Job] Clearing old logs and cache..."
            "[Job] Logs and cache cleared.")
      None ]%string.

End Jobs.

(* ------------------------------------------------------------------ *)
(** ** Sample tasks and schedules *)

Module Sample.

(** The state counts the runs so far. *)
Definition always_fails : Task nat :=
  fun n => mkSettled (S n) 250 (Some "boom"%string).

Definition succeeds : Task nat :=
  fun n => mkSettled (S n) 40 None.

(** Rejects on its first [k] runs, is fulfilled from then on. *)
Definition fails_first (k : nat) : Task nat :=
  fun n => mkSettled (S n) 250
             (if (n <? k)%nat then Some "boom"%string else None).

(** A matching rule that knows one expression: every minute, on the
    minute. *)
Definition every_minute (expr : string) (t : Z) : bool :=
  String.eqb expr "* * * * *" && (t mod 60000 =? 0).

(** The registries of the two end-to-end scenarios. *)
Definition registry_A : list (JobParams nat) :=
  [ mkJob "A" "a" "* * * * *" always_fails (Some 3) ]%string.

Definition registry_B : list (JobParams nat) :=
  [ mkJob "B" "b" "* * * * *" succeeds None ]%string.

(** Executor parameters over the sample tasks. *)
Definition exec_A (retries : option Z) : JobExecutionParams nat :=
  mkExec "A"%string always_fails retries.

Definition exec_B : JobExecutionParams nat :=
  mkExec "B"%string succeeds None.

Definition exec_F : JobExecutionParams nat :=
  mkExec "F"%string (fails_first 2) (Some 5).

(** A process at clock 0 in which no task has run. *)
Definition idle : World nat := fresh 0 0%nat.

End Sample.

(* ------------------------------------------------------------------ *)
(** ** Measures of a retry chain *)

Section Measures.

Context {Env : Type}.


(** The time the first [k] runs of a task take, in milliseconds. *)
Fixpoint total_elapsed (t : Task Env) (e : Env) (k : nat) : Z :=
  match k with
  | O => 0
  | S k' => Z.of_N (elapsed (t e)) + total_elapsed t (env_after (t e)) k'
  end.

(** What [console.error] received. *)
Definition stderr (tr : list (Z * Effect Env)) : list Line :=
  flat_map (fun x => match snd x with
                     | ConsoleError l => [l]
                     | _ => []
                     end) tr.

(** What [console.log] received. *)
Definition stdout (tr : list (Z * Effect Env)) : list Line :=
  flat_map (fun x => match snd x with
                     | ConsoleLog l => [l]
                     | _ => []
                     end) tr.

(** A task that is fulfilled whatever state it runs on. *)
Definition never_rejects (t : Task Env) : Prop :=
  forall e, rejection (t e) = None.

(** A task that rejects whatever state it runs on. *)
Definition always_rejects (t : Task Env) : Prop :=
  forall e, rejection (t e) <> None.

(** The three ways an invocation [executeJob p a] begun in [w] can go:
    the world [w'] it ends in and the effects [d] it performs. *)
Inductive Outcome (p : JobExecutionParams Env) (a : Z) (w w' : World Env)
          (d : list (Z * Effect Env)) : Prop :=
| Fulfilled :
    rejection (exec_task p (env w)) = None ->
    timers w' = timers w ->
    d = [ (now w, ConsoleLog (Executing (exec_name p) a));
          (settled_at p w, ConsoleLog (ExecutedSuccessfully (exec_name p))) ] ->
    Outcome p a w w' d
| GaveUp (err : Error) :
    rejection (exec_task p (env w)) = Some err ->
    Js.truthy (exec_retries p) && Js.lt a (exec_retries p) = false ->
    timers w' = timers w ->
    d = [ (now w, ConsoleLog (Executing (exec_name p) a));
          (settled_at p w, ConsoleError (FailedOnAttempt (exec_name p) a err));
          (settled_at p w, ConsoleError (FailedAfter (exec_name p) a)) ] ->
    Outcome p a w w' d
| Retried (err : Error) :
    rejection (exec_task p (env w)) = Some err ->
    Js.truthy (exec_retries p) && Js.lt a (exec_retries p) = true ->
    timers w' =
      insert_timer
        (mkTimer (settled_at p w + 10000)
           (RetryCallback (exec_name p) (exec_task p) (exec_retries p) a))
        (timers w) ->
    d = [ (now w, ConsoleLog (Executing (exec_name p) a));
          (settled_at p w, ConsoleError (FailedOnAttempt (exec_name p) a err));
          (settled_at p w, ConsoleLog (Retrying (exec_name p)));
          (settled_at p w,
           SetTimeout (RetryCallback (exec_name p) (exec_task p)
                                     (exec_retries p) a) 10000) ] ->
    Outcome p a w w' d.

End Measures.

(* ------------------------------------------------------------------ *)
(** ** The server entry point (the module that imports
       [registerAllCronJobs] and [app]) *)

Section Server.

Context {Env : Type}.

(** [import { registerAllCronJobs } from '../cron-jobs'], with the
    registry that module imports. *)
Variable jobs : list (JobParams Env).

(** A variable of [process.env] used as a condition: [undefined] and the
    empty string are falsy, every other string is truthy. *)
Definition env_truthy (v : option string) : bool :=
  match v with
  | None => false
  | Some EmptyString => false
  | Some (String _ _) => true
  end.

(** [Number(process.env.PORT) || 3000], from the number
    [Number(process.env.PORT)] evaluates to ([None] is [NaN]). *)
Definition PORT (parsed : option Z) : Z :=
  match parsed with
  | Some v => if Js.truthy parsed then v else 3000
  | None => 3000
  end.

(** What the entry point does, in order. *)
Inductive ServerEffect :=
| CronEffect (e : Z * Effect Env)
    (* an effect of the call [registerAllCronJobs()] *)
| ConsoleLogRegistered
    (* console.log('... Cron jobs registered successfully') *)
| AppListen (port : Z).
    (* app.listen(PORT, ...) *)

(** The statements of the entry point after [dotenv.config()]:
    [if (process.env.CRON_SERVER) { registerAllCronJobs(); console.log(...) }]
    and then [app.listen(PORT, ...)].  An error thrown by a statement
    ends the module. *)
Definition server (CRON_SERVER : option string) (parsed_port : option Z)
           (w : World Env)
  : Completion unit * list ServerEffect * World Env :=
  let after_if :=
    if env_truthy CRON_SERVER then
      match registerAllCronJobs jobs w with
      | (Normal _, w') =>
          (Normal tt, map CronEffect (since w w') ++ [ConsoleLogRegistered], w')
      | (Throw e, w') =>
          (Throw e, map CronEffect (since w w'), w')
      end
    else (Normal tt, [], w) in
  match after_if with
  | (Normal _, effects, w') =>
      (Normal tt, effects ++ [AppListen (PORT parsed_port)], w')
  | (Throw e, effects, w') => (Throw e, effects, w')
  end.

End Server.

(* ------------------------------------------------------------------ *)
(** * Properties *)

Ltac unfold_executor :=
  cbv [executeJob try_catch bind ret console_log console_error
       setTimeout emit await];
  simpl.

Section ExecutorSteps.

Context {Env : Type}.
Implicit Types (p : JobExecutionParams Env) (w : World Env) (a : Z).

(** A fulfilled task: start message, success message, nothing else. *)
Lemma executeJob_fulfilled p a w :
  rejection (exec_task p (env w)) = None ->
  executeJob p a w =
    (Normal tt,
     mkWorld (settled_at p w) (env_after (exec_task p (env w)))
       (trace w ++
          [ (now w, ConsoleLog (Executing (exec_name p) a));
            (settled_at p w, ConsoleLog (ExecutedSuccessfully (exec_name p))) ])
       (timers w) (cron_table w)).
Proof.
  intros Hok. destruct p as [n t r]; unfold settled_at; simpl in *.
  unfold_executor. rewrite Hok. simpl.
  rewrite <- app_assoc. reflexivity.
Qed.

(** A rejected task while the retry condition holds. *)
Lemma executeJob_retries p a w err :
  rejection (exec_task p (env w)) = Some err ->
  Js.truthy (exec_retries p) && Js.lt a (exec_retries p) = true ->
  executeJob p a w =
    (Normal tt,
     mkWorld (settled_at p w) (env_after (exec_task p (env w)))
       (trace w ++
          [ (now w, ConsoleLog (Executing (exec_name p) a));
            (settled_at p w, ConsoleError (FailedOnAttempt (exec_name p) a err));
            (settled_at p w, ConsoleLog (Retrying (exec_name p)));
            (settled_at p w,
             SetTimeout (RetryCallback (exec_name p) (exec_task p)
                                       (exec_retries p) a) 10000) ])
       (insert_timer
          (mkTimer (settled_at p w + 10000)
                   (RetryCallback (exec_name p) (exec_task p) (exec_retries p) a))
          (timers w))
       (cron_table w)).
Proof.
  intros Herr Hc. destruct p as [n t r]; unfold settled_at; simpl in *.
  unfold_executor. rewrite Herr. simpl. rewrite Hc. unfold_executor.
  rewrite <- !app_assoc. reflexivity.
Qed.

(** A rejected task while the retry condition fails. *)
Lemma executeJob_gives_up p a w err :
  rejection (exec_task p (env w)) = Some err ->
  Js.truthy (exec_retries p) && Js.lt a (exec_retries p) = false ->
  executeJob p a w =
    (Normal tt,
     mkWorld (settled_at p w) (env_after (exec_task p (env w)))
       (trace w ++
          [ (now w, ConsoleLog (Executing (exec_name p) a));
            (settled_at p w, ConsoleError (FailedOnAttempt (exec_name p) a err));
            (settled_at p w, ConsoleError (FailedAfter (exec_name p) a)) ])
       (timers w) (cron_table w)).
Proof.
  intros Herr Hc. destruct p as [n t r]; unfold settled_at; simpl in *.
  unfold_executor. rewrite Herr. simpl. rewrite Hc. unfold_executor.
  rewrite <- !app_assoc. reflexivity.
Qed.

End ExecutorSteps.

Section Traces.

Context {Env : Type}.
Implicit Types (w : World Env) (tr : list (Z * Effect Env)).

Lemma skipn_length_app {A} (l d : list A) :
  skipn (List.length l) (l ++ d) = d.
Proof. induction l as [|x l IH]; simpl; auto. Qed.

Lemma since_extend w t e d tms tbl :
  since w (mkWorld t e (trace w ++ d) tms tbl) = d.
Proof. unfold since; simpl. apply skipn_length_app. Qed.

Lemma since_trace w w' d : trace w' = trace w ++ d -> since w w' = d.
Proof. intros E. unfold since. rewrite E. apply skipn_length_app. Qed.

Lemma since_refl w : since w w = [].
Proof.
  unfold since. rewrite <- (app_nil_r (trace w)) at 2.
  apply skipn_length_app.
Qed.

Lemma run_timers_idle (fuel : nat) w : timers w = [] -> run_timers fuel w = w.
Proof. intros E. destruct fuel; simpl; [|rewrite E]; reflexivity. Qed.

End Traces.

Section SingleInvocation.

Context {Env : Type}.
Implicit Types (p : JobExecutionParams Env) (w : World Env) (a : Z).

(** The retry condition of line 42, spelled out. *)
Lemma retry_condition (r : option Z) a :
  Js.truthy r && Js.lt a r = true <->
  exists v, r = Some v /\ v <> 0 /\ a < v.
Proof.
  destruct r as [v|]; simpl; split.
  - intros H. apply andb_true_iff in H. destruct H as [H1 H2].
    exists v. apply negb_true_iff, Z.eqb_neq in H1. apply Z.ltb_lt in H2. auto.
  - intros (v' & E & H1 & H2). injection E as <-.
    apply andb_true_iff. split.
    + apply negb_true_iff, Z.eqb_neq; assumption.
    + apply Z.ltb_lt; assumption.
  - discriminate.
  - intros (v' & E & _). discriminate.
Qed.

(** C4.  A task that completes without error on the first attempt: the
    executor prints the start message and the success message, once
    each and nothing else, sets no timer and leaves the pending timers
    as they were. *)
Theorem first_attempt_success p w :
  rejection (exec_task p (env w)) = None ->
  let w' := snd (executeJob p 1 w) in
  started (since w w') = [(exec_name p, 1)] /\
  succeeded (since w w') = [exec_name p] /\
  printed (since w w') =
    [Executing (exec_name p) 1; ExecutedSuccessfully (exec_name p)] /\
  timeouts (since w w') = [] /\
  timers w' = timers w.
Proof.
  intros Hok. rewrite (executeJob_fulfilled p 1 w Hok). simpl.
  rewrite since_extend. repeat split.
Qed.

(** What one failing invocation does when the retry condition is
    false. *)
Lemma failing_without_retry p a w err :
  rejection (exec_task p (env w)) = Some err ->
  Js.truthy (exec_retries p) && Js.lt a (exec_retries p) = false ->
  let w' := snd (executeJob p a w) in
  started (since w w') = [(exec_name p, a)] /\
  gave_up (since w w') = [(exec_name p, a)] /\
  timeouts (since w w') = [] /\
  timers w' = timers w.
Proof.
  intros Herr Hc. rewrite (executeJob_gives_up p a w err Herr Hc). simpl.
  rewrite since_extend. repeat split.
Qed.

(** The value of [retries] does not show in what a failing invocation
    does once the retry condition is false. *)
Lemma giving_up_ignores_retries (n : string) (t : Task Env) (r r' : option Z) a w :
  rejection (t (env w)) <> None ->
  Js.truthy r && Js.lt a r = false ->
  Js.truthy r' && Js.lt a r' = false ->
  executeJob (mkExec n t r) a w = executeJob (mkExec n t r') a w.
Proof.
  intros Herr Hc Hc'. destruct (rejection (t (env w))) as [err|] eqn:E;
    [|congruence].
  rewrite (executeJob_gives_up (mkExec n t r) a w err E Hc).
  rewrite (executeJob_gives_up (mkExec n t r') a w err E Hc').
  reflexivity.
Qed.

(** C2.  With [retries] unset, 0 or 1, a failing task begun at attempt
    1 is attempted once: one start message, the final-failure message,
    no timer set, and running the event loop afterwards changes
    nothing.  The invocation is the same as with [retries] unset. *)
Theorem no_retry_for_unset_zero_one p w :
  (exec_retries p = None \/ exec_retries p = Some 0 \/ exec_retries p = Some 1) ->
  rejection (exec_task p (env w)) <> None ->
  let w' := snd (executeJob p 1 w) in
  started (since w w') = [(exec_name p, 1)] /\
  gave_up (since w w') = [(exec_name p, 1)] /\
  timeouts (since w w') = [] /\
  timers w' = timers w /\
  (timers w = [] -> forall fuel, run_timers fuel w' = w') /\
  executeJob p 1 w = executeJob (mkExec (exec_name p) (exec_task p) None) 1 w.
Proof.
  intros Hr Herr.
  assert (Hc : Js.truthy (exec_retries p) && Js.lt 1 (exec_retries p) = false)
    by (destruct Hr as [-> | [-> | ->]]; reflexivity).
  destruct (rejection (exec_task p (env w))) as [err|] eqn:E; [|congruence].
  destruct (failing_without_retry p 1 w err E Hc) as (H1 & H2 & H3 & H4).
  repeat split; auto.
  - intros Hidle fuel. apply run_timers_idle. simpl in H4. congruence.
  - destruct p as [n t r]; cbn [exec_name exec_task exec_retries] in *.
    apply giving_up_ignores_retries; auto. congruence.
Qed.

(** C10.  With a negative [retries], a failing task begun at attempt 1
    is attempted once and no timer is set: the invocation takes the
    final-failure branch and is the same as with [retries = 0]. *)
Theorem no_retry_for_negative p w (r : Z) :
  exec_retries p = Some r -> r < 0 ->
  rejection (exec_task p (env w)) <> None ->
  let w' := snd (executeJob p 1 w) in
  Js.truthy (exec_retries p) = true /\
  Js.lt 1 (exec_retries p) = false /\
  started (since w w') = [(exec_name p, 1)] /\
  gave_up (since w w') = [(exec_name p, 1)] /\
  timeouts (since w w') = [] /\
  timers w' = timers w /\
  (timers w = [] -> forall fuel, run_timers fuel w' = w') /\
  executeJob p 1 w = executeJob (mkExec (exec_name p) (exec_task p) (Some 0)) 1 w.
Proof.
  intros Hr Hneg Herr.
  assert (Ht : Js.truthy (exec_retries p) = true).
  { rewrite Hr. simpl. apply negb_true_iff, Z.eqb_neq. lia. }
  assert (Hl : Js.lt 1 (exec_retries p) = false).
  { rewrite Hr. simpl. apply Z.ltb_ge. lia. }
  assert (Hc : Js.truthy (exec_retries p) && Js.lt 1 (exec_retries p) = false)
    by (rewrite Ht, Hl; reflexivity).
  destruct (rejection (exec_task p (env w))) as [err|] eqn:E; [|congruence].
  destruct (failing_without_retry p 1 w err E Hc) as (H1 & H2 & H3 & H4).
  repeat split; auto.
  - intros Hidle fuel. apply run_timers_idle. simpl in H4. congruence.
  - destruct p as [n t r0]; cbn [exec_name exec_task exec_retries] in *.
    apply giving_up_ignores_retries; auto. congruence.
Qed.

End SingleInvocation.

Section RetryDecision.

Context {Env : Type}.
Implicit Types (p : JobExecutionParams Env) (w : World Env) (a : Z).

(** The closure set by attempt [a] of [p] calls the executor with [p]
    itself and [a + 1]. *)
Lemma retry_callback_args p a :
  callback_args (RetryCallback (exec_name p) (exec_task p) (exec_retries p) a)
  = (p, a + 1).
Proof. destruct p; reflexivity. Qed.

(** C3.  When the task fails, a timer is set if and only if [retries]
    is a non-zero number and [attempt < retries].  The timer is the
    only one set, has delay 10000, and its callback invokes the same
    executor with the same parameters and [attempt + 1].  Setting it is
    the last thing the invocation does: it completes normally with the
    timer pending and only its own attempt begun. *)
Theorem retry_scheduled_iff_budget_left p a w :
  rejection (exec_task p (env w)) <> None ->
  let w' := snd (executeJob p a w) in
  let retry :=
    RetryCallback (exec_name p) (exec_task p) (exec_retries p) a in
  (timeouts (since w w') <> [] <->
     exists r, exec_retries p = Some r /\ r <> 0 /\ a < r) /\
  (timeouts (since w w') <> [] ->
     timeouts (since w w') = [(retry, 10000)] /\
     run_callback retry = executeJob p (a + 1) /\
     timers w' =
       insert_timer (mkTimer (settled_at p w + 10000) retry) (timers w) /\
     exists front,
       since w w' = front ++ [(settled_at p w, SetTimeout retry 10000)]) /\
  fst (executeJob p a w) = Normal tt /\
  started (since w w') = [(exec_name p, a)].
Proof.
  intros Herr.
  destruct (rejection (exec_task p (env w))) as [err|] eqn:E; [|congruence].
  destruct (Js.truthy (exec_retries p) && Js.lt a (exec_retries p)) eqn:Hc.
  - rewrite (executeJob_retries p a w err E Hc). simpl.
    rewrite since_extend. simpl.
    repeat split; try discriminate; auto.
    + intros _. apply retry_condition; assumption.
    + unfold run_callback. rewrite retry_callback_args. reflexivity.
    + eexists [_; _; _]. reflexivity.
  - rewrite (executeJob_gives_up p a w err E Hc). simpl.
    rewrite since_extend. simpl.
    repeat split; try congruence.
    intros H. apply retry_condition in H. congruence.
Qed.

(** C6.  The executor completes normally whatever the task and the
    value of [retries]; so does every callback that wraps it.  An error
    of the task is caught and printed; when [retries] is unset or
    [attempt >= retries], the final-failure message is the last effect
    of the invocation and no timer is set. *)
Theorem executor_never_throws p a w :
  fst (executeJob p a w) = Normal tt /\
  (forall cb : Callback Env, fst (run_callback cb w) = Normal tt) /\
  (forall err,
     rejection (exec_task p (env w)) = Some err ->
     let w' := snd (executeJob p a w) in
     In (settled_at p w, ConsoleError (FailedOnAttempt (exec_name p) a err))
        (since w w') /\
     ((exec_retries p = None \/ exists r, exec_retries p = Some r /\ r <= a) ->
        timeouts (since w w') = [] /\
        gave_up (since w w') = [(exec_name p, a)] /\
        exists front,
          since w w' =
            front ++ [(settled_at p w, ConsoleError (FailedAfter (exec_name p) a))])).
Proof.
  assert (Hnormal : forall q b, fst (executeJob q b w) = Normal tt).
  { intros q b.
    destruct (rejection (exec_task q (env w))) as [err|] eqn:E.
    - destruct (Js.truthy (exec_retries q) && Js.lt b (exec_retries q)) eqn:Hc.
      + rewrite (executeJob_retries q b w err E Hc). reflexivity.
      + rewrite (executeJob_gives_up q b w err E Hc). reflexivity.
    - rewrite (executeJob_fulfilled q b w E). reflexivity. }
  split; [apply Hnormal|]. split; [intros cb; apply Hnormal|].
  intros err E. cbv zeta. split.
  - destruct (Js.truthy (exec_retries p) && Js.lt a (exec_retries p)) eqn:Hc.
    + rewrite (executeJob_retries p a w err E Hc). simpl.
      rewrite since_extend. simpl. auto.
    + rewrite (executeJob_gives_up p a w err E Hc). simpl.
      rewrite since_extend. simpl. auto.
  - intros Hterm.
    assert (Hc : Js.truthy (exec_retries p) && Js.lt a (exec_retries p) = false).
    { destruct Hterm as [-> | (r & -> & Hle)]; [reflexivity|].
      simpl. apply andb_false_iff. right. apply Z.ltb_ge. assumption. }
    rewrite (executeJob_gives_up p a w err E Hc). simpl.
    rewrite since_extend. simpl. repeat split.
    eexists [_; _]. reflexivity.
Qed.

End RetryDecision.

Section RetryChains.

Context {Env : Type}.
Implicit Types (p : JobExecutionParams Env) (w : World Env) (a : Z).

Lemma attempts_from_length a (n : nat) : List.length (attempts_from a n) = n.
Proof. revert a; induction n; intros; simpl; auto. Qed.

Lemma attempts_from_snoc a (n : nat) :
  attempts_from a (S n) = attempts_from a n ++ [a + Z.of_nat n].
Proof.
  revert a; induction n as [|n IH]; intros a.
  - simpl. rewrite Z.add_0_r. reflexivity.
  - change (attempts_from a (S (S n)))
      with (a :: attempts_from (a + 1) (S n)).
    rewrite IH. simpl. do 3 f_equal. lia.
Qed.

Lemma rejects_shift (t : Task Env) (e : Env) (i : nat) :
  rejects t e (S i) = rejects t (env_after (t e)) i.
Proof. reflexivity. Qed.

Lemma rejects_first (t : Task Env) (e : Env) :
  rejects t e 0 = true -> exists err, rejection (t e) = Some err.
Proof.
  unfold rejects; simpl. destruct (rejection (t e)) as [err|]; [eauto|discriminate].
Qed.

(** The retry of a failed attempt, as the event loop sees it: with no
    other timer pending, the next timer to run is the one the attempt
    set, and running it is attempt [a + 1] in [before_retry p a w]. *)
Lemma run_timers_retry p a w (fuel : nat) :
  timers w = [] ->
  rejects (exec_task p) (env w) 0 = true ->
  Js.truthy (exec_retries p) && Js.lt a (exec_retries p) = true ->
  run_timers (S fuel) (snd (executeJob p a w)) =
  run_timers fuel (snd (executeJob p (a + 1) (before_retry p a w))).
Proof.
  intros Hidle Hrej Hc. destruct (rejects_first _ _ Hrej) as [err E].
  unfold before_retry. rewrite (executeJob_retries p a w err E Hc).
  rewrite Hidle. cbn [snd run_timers timers insert_timer].
  unfold fire. cbn [handler due now env trace cron_table].
  unfold run_callback. rewrite retry_callback_args. cbn [fst snd].
  rewrite Z.max_r by lia. reflexivity.
Qed.

(** The world in which the retry begins. *)
Lemma before_retry_world p a w :
  rejects (exec_task p) (env w) 0 = true ->
  Js.truthy (exec_retries p) && Js.lt a (exec_retries p) = true ->
  exists err,
    before_retry p a w =
      mkWorld (settled_at p w + 10000) (env_after (exec_task p (env w)))
        (trace w ++
           [ (now w, ConsoleLog (Executing (exec_name p) a));
             (settled_at p w, ConsoleError (FailedOnAttempt (exec_name p) a err));
             (settled_at p w, ConsoleLog (Retrying (exec_name p)));
             (settled_at p w,
              SetTimeout (RetryCallback (exec_name p) (exec_task p)
                                        (exec_retries p) a) 10000) ])
        [] (cron_table w).
Proof.
  intros Hrej Hc. destruct (rejects_first _ _ Hrej) as [err E].
  exists err. unfold before_retry.
  rewrite (executeJob_retries p a w err E Hc). reflexivity.
Qed.

(** [k] retried attempts take [k] timers. *)
Lemma run_timers_retries p (k : nat) : forall a w (fuel : nat),
  timers w = [] ->
  (forall i, (i < k)%nat -> rejects (exec_task p) (env w) i = true) ->
  (forall i, (i < k)%nat ->
     Js.truthy (exec_retries p) && Js.lt (a + Z.of_nat i) (exec_retries p) = true) ->
  run_timers (k + fuel) (snd (executeJob p a w)) =
  run_timers fuel
    (snd (executeJob p (a + Z.of_nat k) (after_retries p a w k))).
Proof.
  induction k as [|k IH]; intros a w fuel Hidle Hrej Hc.
  - simpl. rewrite Z.add_0_r. reflexivity.
  - assert (Hrej0 : rejects (exec_task p) (env w) 0 = true)
      by (apply Hrej; lia).
    assert (Hc0 : Js.truthy (exec_retries p) && Js.lt a (exec_retries p) = true)
      by (rewrite <- (Z.add_0_r a) at 1; apply (Hc O); lia).
    change (S k + fuel)%nat with (S (k + fuel)).
    rewrite (run_timers_retry p a w _ Hidle Hrej0 Hc0).
    destruct (before_retry_world p a w Hrej0 Hc0) as [err Ew].
    rewrite IH.
    + cbn [after_retries]. do 3 f_equal. lia.
    + rewrite Ew. reflexivity.
    + intros i Hi. rewrite Ew. cbn [env].
      rewrite <- rejects_shift. apply Hrej. lia.
    + intros i Hi. replace (a + 1 + Z.of_nat i) with (a + Z.of_nat (S i)) by lia.
      apply Hc. lia.
Qed.

Lemma retried_after_later p a ms (front tr : list (Z * Effect Env)) :
  retried_after p a ms tr -> retried_after p a ms (front ++ tr).
Proof.
  intros (tm & err & H1 & H2 & H3). exists tm, err.
  repeat split; apply in_or_app; right; assumption.
Qed.

(** What the [k] retried attempts leave behind. *)
Lemma after_retries_effects p (k : nat) : forall a w,
  timers w = [] ->
  (forall i, (i < k)%nat -> rejects (exec_task p) (env w) i = true) ->
  (forall i, (i < k)%nat ->
     Js.truthy (exec_retries p) && Js.lt (a + Z.of_nat i) (exec_retries p) = true) ->
  let wk := after_retries p a w k in
  timers wk = [] /\
  cron_table wk = cron_table w /\
  env wk = env_before (exec_task p) (env w) k /\
  exists d,
    trace wk = trace w ++ d /\
    started d = map (pair (exec_name p)) (attempts_from a k) /\
    succeeded d = [] /\
    gave_up d = [] /\
    timeouts d =
      map (fun i => (RetryCallback (exec_name p) (exec_task p)
                                   (exec_retries p) i, 10000))
          (attempts_from a k) /\
    forall tail,
      let full :=
        d ++ (now wk, ConsoleLog (Executing (exec_name p) (a + Z.of_nat k)))
          :: tail in
      (exists rest,
         full = (now w, ConsoleLog (Executing (exec_name p) a)) :: rest) /\
      (forall i, (i < k)%nat -> retried_after p (a + Z.of_nat i) 10000 full).
Proof.
  induction k as [|k IH]; intros a w Hidle Hrej Hc; cbv zeta.
  - cbn [after_retries env_before]. repeat split; auto.
    exists []. rewrite app_nil_r. repeat split; auto.
    + cbn [app]. rewrite Z.add_0_r. eauto.
    + intros i Hi. lia.
  - assert (Hrej0 : rejects (exec_task p) (env w) 0 = true)
      by (apply Hrej; lia).
    assert (Hc0 : Js.truthy (exec_retries p) && Js.lt a (exec_retries p) = true)
      by (rewrite <- (Z.add_0_r a) at 1; apply (Hc O); lia).
    destruct (before_retry_world p a w Hrej0 Hc0) as [err Ew].
    cbn [after_retries env_before].
    destruct (IH (a + 1) (before_retry p a w)) as (I1 & I2 & I3 & d & I4 & I5 & I6 & I7 & I8 & I9).
    + rewrite Ew. reflexivity.
    + intros i Hi. rewrite Ew. cbn [env].
      rewrite <- rejects_shift. apply Hrej. lia.
    + intros i Hi. replace (a + 1 + Z.of_nat i) with (a + Z.of_nat (S i)) by lia.
      apply Hc. lia.
    + set (wk := after_retries p (a + 1) (before_retry p a w) k) in *.
      rewrite Ew in I2, I3, I4, I9. cbn [cron_table env trace now] in I2, I3, I4, I9.
      repeat split; auto.
      rewrite <- app_assoc in I4.
      eexists. split; [exact I4|].
      cbn [app]. repeat split.
      * cbn [started flat_map snd app map attempts_from].
        fold (started d). rewrite I5. reflexivity.
      * cbn [succeeded flat_map snd app]. exact I6.
      * cbn [gave_up flat_map snd app]. exact I7.
      * cbn [timeouts flat_map snd app map attempts_from].
        fold (timeouts d). rewrite I8. reflexivity.
      * eauto.
      * intros i Hi.
        replace (a + Z.of_nat (S k)) with (a + 1 + Z.of_nat k) by lia.
        destruct (I9 tail) as [[rest Efull] Hlater].
        destruct i as [|i].
        -- exists (settled_at p w), err. rewrite Z.add_0_r.
           repeat split.
           ++ right; left; reflexivity.
           ++ do 3 right; left; reflexivity.
           ++ do 4 right. rewrite Efull. left. reflexivity.
        -- replace (a + Z.of_nat (S i)) with (a + 1 + Z.of_nat i) by lia.
           apply (retried_after_later p _ _ [_; _; _; _]).
           apply Hlater. lia.
Qed.

Lemma started_app (l l' : list (Z * Effect Env)) :
  started (l ++ l') = started l ++ started l'.
Proof. apply flat_map_app. Qed.

Lemma succeeded_app (l l' : list (Z * Effect Env)) :
  succeeded (l ++ l') = succeeded l ++ succeeded l'.
Proof. apply flat_map_app. Qed.

Lemma gave_up_app (l l' : list (Z * Effect Env)) :
  gave_up (l ++ l') = gave_up l ++ gave_up l'.
Proof. apply flat_map_app. Qed.

Lemma timeouts_app (l l' : list (Z * Effect Env)) :
  timeouts (l ++ l') = timeouts l ++ timeouts l'.
Proof. apply flat_map_app. Qed.

Lemma retry_allowed_below (R : Z) a :
  R <> 0 -> a < R -> Js.truthy (Some R) && Js.lt a (Some R) = true.
Proof. intros H1 H2. apply retry_condition. exists R. auto. Qed.

(** C1.  A task that fails on each of its first [R] runs, executed with
    [retries = R >= 2] from attempt 1 in a process with no other timer
    pending, and the event loop run for at least [R - 1] timers:
    attempts 1, ..., R begin, in this order and no other; [R - 1]
    timers are set, each with delay 10000 and re-invoking the executor;
    attempt [a + 1] begins exactly 10000 ms after the failure of
    attempt [a]; the last effect is the final-failure message for [R]
    attempts; no timer is left, so nothing more happens however long
    the loop runs. *)
Theorem always_failing_exhausts_retries p (R : Z) w (fuel : nat) :
  exec_retries p = Some R -> 2 <= R ->
  timers w = [] ->
  (forall i, (i < Z.to_nat R)%nat -> rejects (exec_task p) (env w) i = true) ->
  (Z.to_nat R - 1 <= fuel)%nat ->
  let w' := run_timers fuel (snd (executeJob p 1 w)) in
  let tr := since w w' in
  started tr = map (pair (exec_name p)) (attempts_from 1 (Z.to_nat R)) /\
  List.length (started tr) = Z.to_nat R /\
  timeouts tr =
    map (fun i => (RetryCallback (exec_name p) (exec_task p)
                                 (exec_retries p) i, 10000))
        (attempts_from 1 (Z.to_nat R - 1)) /\
  List.length (timeouts tr) = (Z.to_nat R - 1)%nat /\
  (forall a, 1 <= a < R -> retried_after p a 10000 tr) /\
  gave_up tr = [(exec_name p, R)] /\
  succeeded tr = [] /\
  (exists front tm,
     tr = front ++ [(tm, ConsoleError (FailedAfter (exec_name p) R))]) /\
  timers w' = [] /\
  (forall more : nat, run_timers more w' = w').
Proof.
  intros Hr HR Hidle Hrej Hfuel.
  set (k := (Z.to_nat R - 1)%nat).
  assert (Hk : 1 + Z.of_nat k = R) by (unfold k; lia).
  assert (Hc : forall i, (i < k)%nat ->
            Js.truthy (exec_retries p) && Js.lt (1 + Z.of_nat i) (exec_retries p) = true).
  { intros i Hi. rewrite Hr. apply retry_allowed_below; lia. }
  assert (Hrej' : forall i, (i < k)%nat -> rejects (exec_task p) (env w) i = true)
    by (intros i Hi; apply Hrej; lia).
  replace fuel with (k + (fuel - k))%nat by lia.
  rewrite (run_timers_retries p k 1 w _ Hidle Hrej' Hc).
  destruct (after_retries_effects p k 1 w Hidle Hrej' Hc)
    as (I1 & I2 & I3 & d & I4 & I5 & I6 & I7 & I8 & I9).
  set (wk := after_retries p 1 w k) in *.
  assert (Hlast : exists err, rejection (exec_task p (env wk)) = Some err).
  { rewrite I3. specialize (Hrej k ltac:(lia)). unfold rejects in Hrej.
    destruct (rejection _) as [err|]; [eauto|discriminate]. }
  destruct Hlast as [err Elast].
  assert (Hstop : Js.truthy (exec_retries p) && Js.lt (1 + Z.of_nat k) (exec_retries p) = false).
  { rewrite Hr. unfold Js.lt. apply andb_false_iff. right.
    apply Z.ltb_ge. lia. }
  rewrite (executeJob_gives_up p _ wk err Elast Hstop). cbn [snd].
  rewrite run_timers_idle by (cbn [timers]; exact I1).
  cbv zeta. rewrite I4, <- app_assoc, since_extend.
  destruct (I9 [ (settled_at p wk, ConsoleError (FailedOnAttempt (exec_name p) (1 + Z.of_nat k) err));
                 (settled_at p wk, ConsoleError (FailedAfter (exec_name p) (1 + Z.of_nat k))) ])
    as [_ Hdelay].
  assert (Hstarted :
    started (d ++ [ (now wk, ConsoleLog (Executing (exec_name p) (1 + Z.of_nat k)));
                    (settled_at p wk, ConsoleError (FailedOnAttempt (exec_name p) (1 + Z.of_nat k) err));
                    (settled_at p wk, ConsoleError (FailedAfter (exec_name p) (1 + Z.of_nat k))) ])
    = map (pair (exec_name p)) (attempts_from 1 (Z.to_nat R))).
  { rewrite started_app, I5. replace (Z.to_nat R) with (S k) by (unfold k; lia).
    rewrite attempts_from_snoc, map_app. reflexivity. }
  assert (Htimeouts :
    timeouts (d ++ [ (now wk, ConsoleLog (Executing (exec_name p) (1 + Z.of_nat k)));
                     (settled_at p wk, ConsoleError (FailedOnAttempt (exec_name p) (1 + Z.of_nat k) err));
                     (settled_at p wk, ConsoleError (FailedAfter (exec_name p) (1 + Z.of_nat k))) ])
    = map (fun i => (RetryCallback (exec_name p) (exec_task p)
                                   (exec_retries p) i, 10000))
          (attempts_from 1 k)).
  { rewrite timeouts_app, I8. cbn. apply app_nil_r. }
  repeat split.
  - exact Hstarted.
  - rewrite Hstarted, length_map. apply attempts_from_length.
  - exact Htimeouts.
  - rewrite Htimeouts, length_map. apply attempts_from_length.
  - intros a Ha. replace a with (1 + Z.of_nat (Z.to_nat (a - 1))) by lia.
    apply Hdelay. lia.
  - rewrite gave_up_app, I7, Hk. reflexivity.
  - rewrite succeeded_app, I6. reflexivity.
  - rewrite Hk.
    exists (d ++ [ (now wk, ConsoleLog (Executing (exec_name p) R));
                   (settled_at p wk, ConsoleError (FailedOnAttempt (exec_name p) R err)) ]),
           (settled_at p wk).
    rewrite <- app_assoc. reflexivity.
  - exact I1.
  - intros more. apply run_timers_idle. exact I1.
Qed.

(** C5.  A task that fails on its first [k] runs and succeeds on the
    next, executed with [retries = R >= k + 1] from attempt 1 in a
    process with no other timer pending, and the event loop run for at
    least [k] timers: attempts 1, ..., k + 1 begin and no other; one
    success message is printed and it is the last effect; each of the
    [k] failures set one timer; no final-failure message is printed and
    no timer is left, so the chain has ended. *)
Theorem eventual_success_ends_chain p (R : Z) (k : nat) w (fuel : nat) :
  exec_retries p = Some R -> Z.of_nat k + 1 <= R ->
  timers w = [] ->
  (forall i, (i < k)%nat -> rejects (exec_task p) (env w) i = true) ->
  rejects (exec_task p) (env w) k = false ->
  (k <= fuel)%nat ->
  let w' := run_timers fuel (snd (executeJob p 1 w)) in
  let tr := since w w' in
  started tr = map (pair (exec_name p)) (attempts_from 1 (S k)) /\
  List.length (started tr) = S k /\
  succeeded tr = [exec_name p] /\
  gave_up tr = [] /\
  timeouts tr =
    map (fun i => (RetryCallback (exec_name p) (exec_task p)
                                 (exec_retries p) i, 10000))
        (attempts_from 1 k) /\
  (forall a, 1 <= a <= Z.of_nat k -> retried_after p a 10000 tr) /\
  (exists front tm,
     tr = front ++ [(tm, ConsoleLog (ExecutedSuccessfully (exec_name p)))]) /\
  timers w' = [] /\
  (forall more : nat, run_timers more w' = w').
Proof.
  intros Hr HR Hidle Hrej Hok Hfuel.
  assert (Hc : forall i, (i < k)%nat ->
            Js.truthy (exec_retries p) && Js.lt (1 + Z.of_nat i) (exec_retries p) = true).
  { intros i Hi. rewrite Hr. apply retry_allowed_below; lia. }
  replace fuel with (k + (fuel - k))%nat by lia.
  rewrite (run_timers_retries p k 1 w _ Hidle Hrej Hc).
  destruct (after_retries_effects p k 1 w Hidle Hrej Hc)
    as (I1 & I2 & I3 & d & I4 & I5 & I6 & I7 & I8 & I9).
  set (wk := after_retries p 1 w k) in *.
  assert (Elast : rejection (exec_task p (env wk)) = None).
  { rewrite I3. unfold rejects in Hok.
    destruct (rejection _); [discriminate|reflexivity]. }
  rewrite (executeJob_fulfilled p _ wk Elast). cbn [snd].
  rewrite run_timers_idle by (cbn [timers]; exact I1).
  cbv zeta. rewrite I4, <- app_assoc, since_extend.
  destruct (I9 [ (settled_at p wk, ConsoleLog (ExecutedSuccessfully (exec_name p))) ])
    as [_ Hdelay].
  assert (Hstarted :
    started (d ++ [ (now wk, ConsoleLog (Executing (exec_name p) (1 + Z.of_nat k)));
                    (settled_at p wk, ConsoleLog (ExecutedSuccessfully (exec_name p))) ])
    = map (pair (exec_name p)) (attempts_from 1 (S k))).
  { rewrite started_app, I5, attempts_from_snoc, map_app. reflexivity. }
  repeat split.
  - exact Hstarted.
  - rewrite Hstarted, length_map. apply attempts_from_length.
  - rewrite succeeded_app, I6. reflexivity.
  - rewrite gave_up_app, I7. reflexivity.
  - rewrite timeouts_app, I8. cbn. apply app_nil_r.
  - intros a Ha. replace a with (1 + Z.of_nat (Z.to_nat (a - 1))) by lia.
    apply Hdelay. lia.
  - exists (d ++ [ (now wk, ConsoleLog (Executing (exec_name p) (1 + Z.of_nat k))) ]),
           (settled_at p wk).
    rewrite <- app_assoc. reflexivity.
  - exact I1.
  - intros more. apply run_timers_idle. exact I1.
Qed.

End RetryChains.

Section ChainFrame.

Context {Env : Type}.
Implicit Types (p : JobExecutionParams Env) (w : World Env) (a : Z).

(** A timer set by an invocation re-invokes the executor with the same
    parameters and the next attempt number. *)
Lemma retry_of_next (q q' : Invocation Env) :
  retry_of q q' -> q' = (fst q, snd q + 1).
Proof.
  destruct q as [p a]. intros (w & tm & cb & ms & Hin & <-). cbn [fst snd] in *.
  destruct (rejection (exec_task p (env w))) as [err|] eqn:E.
  - destruct (Js.truthy (exec_retries p) && Js.lt a (exec_retries p)) eqn:Hc.
    + rewrite (executeJob_retries p a w err E Hc) in Hin. cbn [snd] in Hin.
      rewrite since_extend in Hin.
      destruct Hin as [H | [H | [H | [H | []]]]]; try discriminate.
      injection H as _ <- _. apply retry_callback_args.
    + rewrite (executeJob_gives_up p a w err E Hc) in Hin. cbn [snd] in Hin.
      rewrite since_extend in Hin.
      destruct Hin as [H | [H | [H | []]]]; discriminate.
  - rewrite (executeJob_fulfilled p a w E) in Hin. cbn [snd] in Hin.
    rewrite since_extend in Hin.
    destruct Hin as [H | [H | []]]; discriminate.
Qed.

(** C9.  Along a chain of [k] retry re-invocations starting from
    [executeJob p a], the executor is invoked with the same [name],
    [task] and [retries]; the attempt number is [a + k]. *)
Theorem retry_chain_keeps_params (k : nat) p a p' a' :
  retry_chain k (p, a) (p', a') ->
  exec_name p' = exec_name p /\
  exec_task p' = exec_task p /\
  exec_retries p' = exec_retries p /\
  a' = a + Z.of_nat k.
Proof.
  intros H.
  assert (G : forall q q' : Invocation Env,
             retry_chain k q q' -> q' = (fst q, snd q + Z.of_nat k)).
  { clear. intros q q' H. induction H as [q | k q q1 q2 Hstep _ IH].
    - destruct q; cbn [fst snd]. rewrite Z.add_0_r. reflexivity.
    - apply retry_of_next in Hstep. subst q1. cbn [fst snd] in IH.
      rewrite IH. f_equal. lia. }
  apply G in H. cbn [fst snd] in H. injection H as -> ->. auto.
Qed.

End ChainFrame.

Section Registration.

Context {Env : Type}.
Variable cron_matches : string -> Z -> bool.
Variable jobs : list (JobParams Env).
Implicit Types (w : World Env).

Lemma forEach_registers (js : list (JobParams Env)) : forall w,
  registerAllCronJobs js w =
    (Normal tt,
     mkWorld (now w) (env w) (trace w ++ registration_effects js (now w))
             (timers w) (cron_table w ++ bindings_of js)).
Proof.
  unfold registerAllCronJobs.
  induction js as [|[n s sch t r] js IH]; intros w.
  - cbn [forEach registration_effects flat_map bindings_of map].
    unfold ret. rewrite !app_nil_r. destruct w; reflexivity.
  - cbn [forEach]. unfold bind at 1.
    cbv [cron_schedule console_log emit bind]. cbn [now env trace timers cron_table].
    rewrite IH. cbn [now env trace timers cron_table].
    cbn [registration_effects flat_map bindings_of map app
         name schedule task retries].
    rewrite <- !app_assoc. reflexivity.
Qed.

Lemma bound_registration (js : list (JobParams Env)) (t : Z) :
  bound (registration_effects js t) = bindings_of js.
Proof.
  unfold bound, registration_effects, bindings_of.
  induction js as [|j js IH]; simpl; [|rewrite IH]; reflexivity.
Qed.

Lemma printed_registration (js : list (JobParams Env)) (t : Z) :
  printed (registration_effects js t)
  = map (fun j => ScheduledJob (name j) (schedule j)) js.
Proof.
  unfold printed, registration_effects.
  induction js as [|j js IH]; simpl; [|rewrite IH]; reflexivity.
Qed.

Lemma started_registration (js : list (JobParams Env)) (t : Z) :
  started (registration_effects js t) = [].
Proof.
  unfold started, registration_effects.
  induction js as [|j js IH]; simpl; auto.
Qed.

(** C7.  One call of [registerAllCronJobs] hands every job of the
    registry to the scheduling primitive once, in registry order, each
    followed by one printed line; the bindings are appended to those
    the primitive already holds; the callback bound for a job invokes
    the executor with that job's [name], [task] and [retries] (and the
    default attempt 1); the call completes normally with no value, runs
    no job and sets no timer. *)
Theorem registration_binds_each_job w :
  let r := registerAllCronJobs jobs w in
  fst r = Normal tt /\
  since w (snd r) = registration_effects jobs (now w) /\
  bound (since w (snd r)) =
    map (fun j => mkBinding (schedule j)
                            (CronCallback (name j) (task j) (retries j))) jobs /\
  cron_table (snd r) = cron_table w ++ bound (since w (snd r)) /\
  (forall j : JobParams Env,
     run_callback (CronCallback (name j) (task j) (retries j))
     = executeJob (mkExec (name j) (task j) (retries j)) 1) /\
  printed (since w (snd r)) =
    map (fun j => ScheduledJob (name j) (schedule j)) jobs /\
  List.length (printed (since w (snd r))) = List.length jobs /\
  started (since w (snd r)) = [] /\
  timers (snd r) = timers w.
Proof.
  cbv zeta. rewrite forEach_registers. cbn [fst snd].
  rewrite since_extend, bound_registration, printed_registration,
          started_registration, length_map.
  repeat split.
Qed.

(** Every invocation of the executor extends the trace and begins
    exactly one attempt. *)
Lemma executeJob_one_start (p : JobExecutionParams Env) (a : Z) w :
  exists d,
    trace (snd (executeJob p a w)) = trace w ++ d /\
    started d = [(exec_name p, a)].
Proof.
  destruct (rejection (exec_task p (env w))) as [err|] eqn:E.
  - destruct (Js.truthy (exec_retries p) && Js.lt a (exec_retries p)) eqn:Hc.
    + rewrite (executeJob_retries p a w err E Hc). eexists; split; reflexivity.
    + rewrite (executeJob_gives_up p a w err E Hc). eexists; split; reflexivity.
  - rewrite (executeJob_fulfilled p a w E). eexists; split; reflexivity.
Qed.

Lemma invoke_all_started (cbs : list (Callback Env)) : forall w,
  exists d,
    trace (invoke_all cbs w) = trace w ++ d /\
    started d = map invoked cbs.
Proof.
  induction cbs as [|cb cbs IH]; intros w.
  - exists []. rewrite app_nil_r. split; reflexivity.
  - cbn [invoke_all fold_left]. fold (invoke_all cbs (snd (run_callback cb w))).
    destruct (IH (snd (run_callback cb w))) as (d & Ed & Sd).
    unfold run_callback in Ed.
    destruct (executeJob_one_start (fst (callback_args cb))
                                   (snd (callback_args cb)) w) as (d0 & Ed0 & Sd0).
    exists (d0 ++ d). split.
    + unfold run_callback. rewrite Ed, Ed0, app_assoc. reflexivity.
    + unfold started in *. rewrite flat_map_app, Sd0, Sd. reflexivity.
Qed.

(** The attempts a tick begins: one per due callback, in registration
    order. *)
Lemma tick_started (t : Z) w :
  started (since w (tick cron_matches t w))
  = map invoked (due_callbacks cron_matches t (cron_table w)).
Proof.
  unfold tick.
  destruct (invoke_all_started (due_callbacks cron_matches t (cron_table w))
              (mkWorld (Z.max (now w) t) (env w) (trace w) (timers w) (cron_table w)))
    as (d & Ed & Sd).
  cbn [trace] in Ed. rewrite (since_trace _ _ _ Ed). exact Sd.
Qed.

Lemma due_callbacks_app (t : Z) (l l' : list (CronBinding Env)) :
  due_callbacks cron_matches t (l ++ l')
  = due_callbacks cron_matches t l ++ due_callbacks cron_matches t l'.
Proof. unfold due_callbacks. rewrite filter_app, map_app. reflexivity. Qed.

Lemma starts_of_bindings (n : string) (t : Z) (js : list (JobParams Env)) :
  List.length
    (filter (fun x => String.eqb (fst x) n)
            (map invoked (due_callbacks cron_matches t (bindings_of js))))
  = List.length
      (filter (fun j => cron_matches (schedule j) t && String.eqb (name j) n) js).
Proof.
  unfold due_callbacks, bindings_of.
  induction js as [|j js IH]; [reflexivity|].
  cbn [map filter expression].
  destruct (cron_matches (schedule j) t); cbn [andb map filter on_tick].
  - unfold invoked at 1. cbn [callback_args fst snd exec_name].
    destruct (String.eqb (name j) n); cbn [List.length]; rewrite IH; reflexivity.
  - exact IH.
Qed.

(** C8.  Registration is not idempotent.  A second call performs the
    effects of the first again and appends the same bindings again, so
    the world differs from the one after a single call whenever the
    registry is not empty.  In a process whose primitive held no
    binding beforehand, a tick then invokes every due callback twice:
    for each job name, twice as many executor invocations begin as
    after a single registration, that is two per registered job of that
    name whose schedule matches. *)
Theorem registering_twice_doubles w (t : Z) :
  let w1 := snd (registerAllCronJobs jobs w) in
  let w2 := snd (registerAllCronJobs jobs w1) in
  cron_table w1 = cron_table w ++ bindings_of jobs /\
  cron_table w2 = cron_table w ++ bindings_of jobs ++ bindings_of jobs /\
  since w1 w2 = since w w1 /\
  (jobs <> [] -> w2 <> w1) /\
  (cron_table w = [] ->
     due_callbacks cron_matches t (cron_table w2)
     = due_callbacks cron_matches t (cron_table w1)
         ++ due_callbacks cron_matches t (cron_table w1) /\
     forall n : string,
       starts_of n (since w1 (tick cron_matches t w1))
       = List.length
           (filter (fun j => cron_matches (schedule j) t && String.eqb (name j) n)
                   jobs) /\
       starts_of n (since w2 (tick cron_matches t w2))
       = (2 * starts_of n (since w1 (tick cron_matches t w1)))%nat).
Proof.
  cbv zeta. rewrite !forEach_registers. cbn [snd now env trace timers cron_table].
  rewrite since_extend. rewrite <- !app_assoc.
  repeat split.
  - symmetry. apply since_extend.
  - intros Hne Heq. apply (f_equal cron_table) in Heq. cbn [cron_table] in Heq.
    apply (f_equal (@List.length _)) in Heq. rewrite !length_app in Heq.
    unfold bindings_of in Heq. rewrite length_map in Heq.
    destruct jobs; [congruence|]. cbn [List.length] in Heq. lia.
  - rewrite H. cbn [app]. apply due_callbacks_app.
  - unfold starts_of. rewrite tick_started. cbn [cron_table].
    rewrite H. cbn [app]. apply starts_of_bindings.
  - unfold starts_of. rewrite !tick_started. cbn [cron_table].
    rewrite H. cbn [app].
    rewrite due_callbacks_app, map_app, filter_app, length_app. lia.
Qed.

End Registration.

(* ------------------------------------------------------------------ *)
(** * The properties at sample inputs *)

Section Instances.

Import Sample.
Local Open Scope string_scope.

(** End-to-end: registry [A] (always fails, [retries = 3]), one tick,
    then the event loop.  Attempts at 60000, 70250 and 80500. *)
Example scenario_always_failing :
  let w1 := snd (registerAllCronJobs registry_A idle) in
  let w2 := run_timers 10 (tick every_minute 60000 w1) in
  since w1 w2 =
    [ (60000, ConsoleLog (Executing "A" 1));
      (60250, ConsoleError (FailedOnAttempt "A" 1 "boom"));
      (60250, ConsoleLog (Retrying "A"));
      (60250, SetTimeout (RetryCallback "A" always_fails (Some 3) 1) 10000);
      (70250, ConsoleLog (Executing "A" 2));
      (70500, ConsoleError (FailedOnAttempt "A" 2 "boom"));
      (70500, ConsoleLog (Retrying "A"));
      (70500, SetTimeout (RetryCallback "A" always_fails (Some 3) 2) 10000);
      (80500, ConsoleLog (Executing "A" 3));
      (80750, ConsoleError (FailedOnAttempt "A" 3 "boom"));
      (80750, ConsoleError (FailedAfter "A" 3)) ] /\
  timers w2 = [].
Proof. split; reflexivity. Qed.

(** End-to-end: registry [B] (succeeds, [retries] unset), one tick. *)
Example scenario_success :
  let w1 := snd (registerAllCronJobs registry_B idle) in
  let w2 := run_timers 10 (tick every_minute 60000 w1) in
  printed (since w1 w2) = [Executing "B" 1; ExecutedSuccessfully "B"] /\
  timeouts (since w1 w2) = [] /\
  timers w2 = [].
Proof. repeat split; reflexivity. Qed.

(** What the console shows in the first scenario. *)
Example scenario_always_failing_console :
  let w1 := snd (registerAllCronJobs registry_A idle) in
  let w2 := run_timers 10 (tick every_minute 60000 w1) in
  map render (printed (since w1 w2)) =
    [ "[Cron] Executing job: A, Attempt: 1";
      "[Cron] Job " ++ dquote ++ "A" ++ dquote ++ " failed on attempt 1: boom";
      "[Cron] Retrying job " ++ dquote ++ "A" ++ dquote ++ " in 10 seconds...";
      "[Cron] Executing job: A, Attempt: 2";
      "[Cron] Job " ++ dquote ++ "A" ++ dquote ++ " failed on attempt 2: boom";
      "[Cron] Retrying job " ++ dquote ++ "A" ++ dquote ++ " in 10 seconds...";
      "[Cron] Executing job: A, Attempt: 3";
      "[Cron] Job " ++ dquote ++ "A" ++ dquote ++ " failed on attempt 3: boom";
      "[Cron] Job " ++ dquote ++ "A" ++ dquote
        ++ " failed after 3 attempts. Skipping." ].
Proof. reflexivity. Qed.

(** The registry of jobs.ts: seven bindings, in the order of the file. *)
Example jobs_ts_registration :
  map expression
      (cron_table (snd (registerAllCronJobs Jobs.jobs (fresh 0 []))))
  = [ "0 1 * * *"; "0 2 * * *"; "0 0,6,12,18 * * *"; "30 3 * * *";
      "30 0,12 * * *"; "0 4 * * *"; "0 5 * * *" ].
Proof. reflexivity. Qed.

Lemma always_failing_exhausts_retries_witness :
  exec_retries (exec_A (Some 3)) = Some 3 /\
  2 <= 3 /\
  timers idle = [] /\
  (forall i, (i < Z.to_nat 3)%nat ->
     rejects (exec_task (exec_A (Some 3))) (env idle) i = true) /\
  started (since idle (run_timers 2 (snd (executeJob (exec_A (Some 3)) 1 idle))))
  = [("A", 1); ("A", 2); ("A", 3)].
Proof.
  assert (H : forall i, (i < Z.to_nat 3)%nat ->
            rejects (exec_task (exec_A (Some 3))) (env idle) i = true)
    by (intros i _; reflexivity).
  split; [reflexivity|]. split; [lia|]. split; [reflexivity|].
  split; [exact H|].
  apply (always_failing_exhausts_retries (exec_A (Some 3)) 3 idle 2);
    [reflexivity | lia | reflexivity | exact H | simpl; lia].
Defined.

Lemma no_retry_for_unset_zero_one_witness :
  exec_retries (exec_A (Some 1)) = Some 1 /\
  rejection (exec_task (exec_A (Some 1)) (env idle)) <> None /\
  started (since idle (snd (executeJob (exec_A (Some 1)) 1 idle))) = [("A", 1)].
Proof.
  split; [reflexivity|]. split; [discriminate|].
  apply (no_retry_for_unset_zero_one (exec_A (Some 1)) idle);
    [right; right; reflexivity | discriminate].
Defined.

Lemma no_retry_for_negative_witness :
  exec_retries (exec_A (Some (-1))) = Some (-1) /\
  -1 < 0 /\
  rejection (exec_task (exec_A (Some (-1))) (env idle)) <> None /\
  timeouts (since idle (snd (executeJob (exec_A (Some (-1))) 1 idle))) = [].
Proof.
  split; [reflexivity|]. split; [lia|]. split; [discriminate|].
  apply (no_retry_for_negative (exec_A (Some (-1))) idle (-1));
    [reflexivity | lia | discriminate].
Defined.

Lemma retry_scheduled_iff_budget_left_witness :
  rejection (exec_task (exec_A (Some 3)) (env idle)) <> None /\
  (timeouts (since idle (snd (executeJob (exec_A (Some 3)) 1 idle))) <> [] <->
     exists r, exec_retries (exec_A (Some 3)) = Some r /\ r <> 0 /\ 1 < r).
Proof.
  split; [discriminate|].
  apply (retry_scheduled_iff_budget_left (exec_A (Some 3)) 1 idle).
  discriminate.
Defined.

Lemma first_attempt_success_witness :
  rejection (exec_task exec_B (env idle)) = None /\
  printed (since idle (snd (executeJob exec_B 1 idle)))
  = [Executing "B" 1; ExecutedSuccessfully "B"].
Proof.
  split; [reflexivity|].
  apply (first_attempt_success exec_B idle). reflexivity.
Defined.

Lemma eventual_success_ends_chain_witness :
  exec_retries exec_F = Some 5 /\
  Z.of_nat 2 + 1 <= 5 /\
  timers idle = [] /\
  (forall i, (i < 2)%nat -> rejects (exec_task exec_F) (env idle) i = true) /\
  rejects (exec_task exec_F) (env idle) 2 = false /\
  succeeded (since idle (run_timers 2 (snd (executeJob exec_F 1 idle)))) = ["F"].
Proof.
  assert (H : forall i, (i < 2)%nat ->
            rejects (exec_task exec_F) (env idle) i = true).
  { intros [|[|i]] Hi; [reflexivity | reflexivity | lia]. }
  split; [reflexivity|]. split; [simpl; lia|]. split; [reflexivity|].
  split; [exact H|]. split; [reflexivity|].
  apply (eventual_success_ends_chain exec_F 5 2 idle 2);
    [reflexivity | simpl; lia | reflexivity | exact H | reflexivity | lia].
Defined.

Lemma executor_never_throws_witness :
  rejection (exec_task (exec_A None) (env idle)) = Some "boom" /\
  exec_retries (exec_A None) = None /\
  gave_up (since idle (snd (executeJob (exec_A None) 1 idle))) = [("A", 1)].
Proof.
  split; [reflexivity|]. split; [reflexivity|].
  apply (proj2 (proj2 (executor_never_throws (exec_A None) 1 idle))
           "boom" eq_refl).
  left. reflexivity.
Defined.

Lemma retry_chain_keeps_params_witness :
  retry_chain 2 (exec_A (Some 3), 1) (exec_A (Some 3), 3) /\
  3 = 1 + Z.of_nat 2.
Proof.
  assert (Hstep : forall a,
            a < 3 -> retry_of (exec_A (Some 3), a) (exec_A (Some 3), a + 1)).
  { intros a Ha.
    exists idle, 250, (RetryCallback "A" always_fails (Some 3) a), 10000.
    split; [|reflexivity]. cbn [fst snd].
    assert (Hc : Js.truthy (Some 3) && Js.lt a (Some 3) = true)
      by (apply retry_allowed_below; lia).
    rewrite (executeJob_retries (exec_A (Some 3)) a idle "boom" eq_refl Hc).
    cbn [snd]. rewrite since_extend. do 3 right. left. reflexivity. }
  assert (Hchain : retry_chain 2 (exec_A (Some 3), 1) (exec_A (Some 3), 3)).
  { apply chain_next with (q' := (exec_A (Some 3), 1 + 1)); [apply Hstep; lia|].
    apply chain_next with (q' := (exec_A (Some 3), 1 + 1 + 1));
      [apply Hstep; lia | apply chain_here]. }
  split; [exact Hchain|].
  apply (retry_chain_keeps_params 2 (exec_A (Some 3)) 1 (exec_A (Some 3)) 3 Hchain).
Defined.

Lemma registering_twice_doubles_witness :
  cron_table idle = [] /\
  starts_of "A"
    (since (snd (registerAllCronJobs registry_A idle))
           (tick every_minute 60000 (snd (registerAllCronJobs registry_A idle))))
  = 1%nat /\
  starts_of "A"
    (since (snd (registerAllCronJobs registry_A
                   (snd (registerAllCronJobs registry_A idle))))
           (tick every_minute 60000
              (snd (registerAllCronJobs registry_A
                      (snd (registerAllCronJobs registry_A idle))))))
  = 2%nat.
Proof.
  split; [reflexivity|].
  destruct (registering_twice_doubles every_minute registry_A idle 60000)
    as (_ & _ & _ & _ & H).
  destruct (H eq_refl) as [_ Hcount].
  destruct (Hcount "A") as [H1 H2].
  split.
  - rewrite H1. reflexivity.
  - rewrite H2, H1. reflexivity.
Defined.

End Instances.


(* ------------------------------------------------------------------ *)
(** * Further properties of the executor *)

Section InvocationFrame.

Context {Env : Type}.
Implicit Types (p : JobExecutionParams Env) (w : World Env) (a : Z).

Lemma insert_timer_length (t : Timer Env) (ts : list (Timer Env)) :
  List.length (insert_timer t ts) = S (List.length ts).
Proof.
  induction ts as [|u ts IH]; [reflexivity|].
  cbn [insert_timer]. destruct (due t <? due u); cbn [List.length]; congruence.
Qed.

Lemma insert_timer_keeps (x t : Timer Env) (ts : list (Timer Env)) :
  In x ts -> In x (insert_timer t ts).
Proof.
  induction ts as [|u ts IH]; intros Hin; [destruct Hin|].
  cbn [insert_timer]. destruct (due t <? due u).
  - right. exact Hin.
  - destruct Hin as [-> | Hin]; [left; reflexivity | right; auto].
Qed.

Lemma executeJob_outcome p a w :
  let w' := snd (executeJob p a w) in
  now w' = settled_at p w /\
  env w' = env_after (exec_task p (env w)) /\
  cron_table w' = cron_table w /\
  exists d, trace w' = trace w ++ d /\ Outcome p a w w' d.
Proof.
  cbv zeta.
  destruct (rejection (exec_task p (env w))) as [err|] eqn:E.
  - destruct (Js.truthy (exec_retries p) && Js.lt a (exec_retries p)) eqn:Hc.
    + rewrite (executeJob_retries p a w err E Hc). cbn [snd now env cron_table trace].
      repeat split. eexists; split; [reflexivity|].
      eapply Retried; eauto.
    + rewrite (executeJob_gives_up p a w err E Hc). cbn [snd now env cron_table trace].
      repeat split. eexists; split; [reflexivity|].
      eapply GaveUp; eauto.
  - rewrite (executeJob_fulfilled p a w E). cbn [snd now env cron_table trace].
    repeat split. eexists; split; [reflexivity|].
    eapply Fulfilled; eauto.
Qed.

(** X3.  An invocation of the executor runs the task exactly once, never
    touches the bindings of the scheduling primitive, never removes a
    pending timer and adds at most one. *)
Theorem executor_never_cancels p a w :
  let w' := snd (executeJob p a w) in
  env w' = env_after (exec_task p (env w)) /\
  cron_table w' = cron_table w /\
  (forall tm, In tm (timers w) -> In tm (timers w')) /\
  (List.length (timers w) <= List.length (timers w') <= S (List.length (timers w)))%nat /\
  List.length (timers w') =
    (List.length (timers w) + List.length (timeouts (since w w')))%nat.
Proof.
  destruct (executeJob_outcome p a w) as (_ & He & Hc & d & Hd & Ho).
  cbv zeta. rewrite (since_trace _ _ _ Hd).
  repeat split; auto;
    destruct Ho as [_ Ht -> | err _ _ Ht -> | err _ _ Ht ->]; rewrite Ht;
    try rewrite insert_timer_length; cbn; auto using insert_timer_keeps; lia.
Qed.

(** X5.  [console.error] receives something during an invocation exactly
    when the task failed; the first line of an invocation goes to
    [console.log] and is the start message. *)
Theorem stderr_iff_task_failed p a w :
  let tr := since w (snd (executeJob p a w)) in
  (stderr tr = [] <-> rejection (exec_task p (env w)) = None) /\
  (forall err, rejection (exec_task p (env w)) = Some err ->
     hd_error (stderr tr) = Some (FailedOnAttempt (exec_name p) a err)) /\
  hd_error (stdout tr) = Some (Executing (exec_name p) a).
Proof.
  destruct (executeJob_outcome p a w) as (_ & _ & _ & d & Hd & Ho).
  cbv zeta. rewrite (since_trace _ _ _ Hd).
  destruct Ho as [E _ -> | err E _ _ -> | err E _ _ ->]; cbn;
    repeat split; try congruence; try discriminate;
    intros err' E'; congruence.
Qed.

End InvocationFrame.

Section BoundedChains.

Context {Env : Type}.
Implicit Types (p : JobExecutionParams Env) (w : World Env) (a : Z).





End BoundedChains.

Section ChainDuration.

Context {Env : Type}.
Implicit Types (p : JobExecutionParams Env) (w : World Env) (a : Z).

Lemma total_elapsed_snoc (t : Task Env) (k : nat) : forall e,
  total_elapsed t e (S k)
  = total_elapsed t e k + Z.of_N (elapsed (t (env_before t e k))).
Proof.
  induction k as [|k IH]; intros e.
  - cbn. lia.
  - change (total_elapsed t e (S (S k)))
      with (Z.of_N (elapsed (t e)) + total_elapsed t (env_after (t e)) (S k)).
    rewrite IH. cbn [total_elapsed env_before]. lia.
Qed.

(** The clock when attempt [a + k] begins. *)
Lemma after_retries_clock p (k : nat) : forall a w,
  (forall i, (i < k)%nat -> rejects (exec_task p) (env w) i = true) ->
  (forall i, (i < k)%nat ->
     Js.truthy (exec_retries p) && Js.lt (a + Z.of_nat i) (exec_retries p) = true) ->
  now (after_retries p a w k)
  = now w + total_elapsed (exec_task p) (env w) k + 10000 * Z.of_nat k.
Proof.
  induction k as [|k IH]; intros a w Hrej Hc.
  - cbn. lia.
  - assert (Hrej0 : rejects (exec_task p) (env w) 0 = true)
      by (apply Hrej; lia).
    assert (Hc0 : Js.truthy (exec_retries p) && Js.lt a (exec_retries p) = true)
      by (rewrite <- (Z.add_0_r a) at 1; apply (Hc O); lia).
    destruct (before_retry_world p a w Hrej0 Hc0) as [err Ew].
    cbn [after_retries total_elapsed]. rewrite IH.
    + rewrite Ew. cbn [now env]. unfold settled_at. lia.
    + intros i Hi. rewrite Ew. cbn [env].
      rewrite <- rejects_shift. apply Hrej. lia.
    + intros i Hi. replace (a + 1 + Z.of_nat i) with (a + Z.of_nat (S i)) by lia.
      apply Hc. lia.
Qed.

(** X2.  The backoff is fixed.  When the task fails on each of its first
    [R] runs and [retries = R >= 2], the chain begun at attempt 1 comes
    to rest at the moment it began plus the time the [R] runs took plus
    [10000 * (R - 1)] milliseconds of waiting: ten seconds per retry,
    whatever the attempt number. *)
Theorem failing_chain_duration p (R : Z) w (fuel : nat) :
  exec_retries p = Some R -> 2 <= R ->
  timers w = [] ->
  (forall i, (i < Z.to_nat R)%nat -> rejects (exec_task p) (env w) i = true) ->
  (Z.to_nat R - 1 <= fuel)%nat ->
  now (run_timers fuel (snd (executeJob p 1 w)))
  = now w + total_elapsed (exec_task p) (env w) (Z.to_nat R) + 10000 * (R - 1).
Proof.
  intros Hr HR Hidle Hrej Hfuel.
  set (k := (Z.to_nat R - 1)%nat).
  assert (Hc : forall i, (i < k)%nat ->
            Js.truthy (exec_retries p) && Js.lt (1 + Z.of_nat i) (exec_retries p) = true).
  { intros i Hi. rewrite Hr. apply retry_allowed_below; lia. }
  assert (Hrej' : forall i, (i < k)%nat -> rejects (exec_task p) (env w) i = true)
    by (intros i Hi; apply Hrej; lia).
  replace fuel with (k + (fuel - k))%nat by lia.
  rewrite (run_timers_retries p k 1 w _ Hidle Hrej' Hc).
  destruct (after_retries_effects p k 1 w Hidle Hrej' Hc) as (I1 & _ & I3 & _).
  pose proof (after_retries_clock p k 1 w Hrej' Hc) as Hclock.
  set (wk := after_retries p 1 w k) in *.
  destruct (executeJob_outcome p (1 + Z.of_nat k) wk) as (Hnow & _ & _ & d & _ & Ho).
  assert (Hstop : Js.truthy (exec_retries p) && Js.lt (1 + Z.of_nat k) (exec_retries p) = false).
  { rewrite Hr. unfold Js.lt. apply andb_false_iff. right.
    apply Z.ltb_ge. lia. }
  assert (Ht : timers (snd (executeJob p (1 + Z.of_nat k) wk)) = [])
    by (destruct Ho as [_ Ht _ | err _ _ Ht _ | err _ Hc' _ _]; congruence).
  rewrite run_timers_idle by exact Ht.
  rewrite Hnow. unfold settled_at. rewrite Hclock, I3.
  replace (Z.to_nat R) with (S k) by lia.
  rewrite total_elapsed_snoc. lia.
Qed.

End ChainDuration.

Section Overlap.

Context {Env : Type}.
Implicit Types (w : World Env).

(** X4.  Nothing prevents overlapping chains.  When the same job, whose
    task always rejects and whose [retries] is at least 2, is triggered
    [k] times before any timer runs, each trigger begins attempt 1 anew
    and sets its own timer for attempt 2: [k] more timers are pending
    and no trigger gives up. *)
Theorem overlapping_triggers_accumulate (n : string) (t : Task Env) (R : Z)
        (k : nat) w :
  always_rejects t -> 2 <= R ->
  let w' := invoke_all (repeat (CronCallback n t (Some R)) k) w in
  List.length (timers w') = (List.length (timers w) + k)%nat /\
  (forall tm, In tm (timers w) -> In tm (timers w')) /\
  started (since w w') = repeat (n, 1) k /\
  timeouts (since w w') = repeat (RetryCallback n t (Some R) 1, 10000) k /\
  gave_up (since w w') = [].
Proof.
  intros Hrej HR.
  assert (G : forall w,
    let w' := invoke_all (repeat (CronCallback n t (Some R)) k) w in
    List.length (timers w') = (List.length (timers w) + k)%nat /\
    (forall tm, In tm (timers w) -> In tm (timers w')) /\
    exists d, trace w' = trace w ++ d /\
      started d = repeat (n, 1) k /\
      timeouts d = repeat (RetryCallback n t (Some R) 1, 10000) k /\
      gave_up d = []).
  { clear w. induction k as [|k IH]; intros w; cbv zeta.
    - cbn. repeat split; auto. exists []. rewrite app_nil_r. repeat split.
    - cbn [repeat invoke_all fold_left].
      fold (invoke_all (repeat (CronCallback n t (Some R)) k)
                       (snd (run_callback (CronCallback n t (Some R)) w))).
      unfold run_callback. cbn [callback_args fst snd].
      set (p := mkExec n t (Some R)).
      destruct (executeJob_outcome p 1 w) as (_ & _ & _ & d & Hd & Ho).
      destruct (IH (snd (executeJob p 1 w))) as (L & K & d' & Hd' & S1 & S2 & S3).
      destruct Ho as [E _ _ | err _ Hc _ _ | err _ _ Ht ->].
      + exfalso. apply (Hrej (env w)). exact E.
      + exfalso. cbn [p exec_retries] in Hc.
        rewrite retry_allowed_below in Hc by lia. discriminate.
      + rewrite Ht in L, K. rewrite insert_timer_length in L.
        repeat split.
        * lia.
        * intros tm Hin. apply K. apply insert_timer_keeps. exact Hin.
        * rewrite Hd, <- app_assoc in Hd'. eexists; split; [exact Hd'|].
          cbn [app started timeouts gave_up flat_map snd].
          fold (started d') (timeouts d') (gave_up d').
          rewrite S1, S2, S3. repeat split. }
  destruct (G w) as (L & K & d & Hd & S1 & S2 & S3).
  cbv zeta. rewrite (since_trace _ _ _ Hd). auto.
Qed.

End Overlap.

(* ------------------------------------------------------------------ *)
(** * Further properties of registration and of the entry point *)

Section RegistrationUse.

Context {Env : Type}.
Variable cron_matches : string -> Z -> bool.
Implicit Types (w : World Env) (js : list (JobParams Env)).




(** X7.  Registration composes.  Registering the concatenation of two
    registries is registering the first and then the second; the empty
    registry changes nothing. *)
Theorem registration_concat (js1 js2 : list (JobParams Env)) w :
  registerAllCronJobs (js1 ++ js2) w
  = registerAllCronJobs js2 (snd (registerAllCronJobs js1 w)) /\
  registerAllCronJobs [] w = (Normal tt, w).
Proof.
  split.
  - rewrite !forEach_registers. cbn [snd now env trace timers cron_table].
    unfold registration_effects, bindings_of.
    rewrite flat_map_app, map_app, <- !app_assoc. reflexivity.
  - rewrite forEach_registers. cbn [registration_effects flat_map bindings_of map].
    rewrite !app_nil_r. destruct w; reflexivity.
Qed.

(** Callbacks whose tasks never reject: every invocation succeeds. *)
Lemma invoke_all_fulfilled (cbs : list (Callback Env)) :
  Forall (fun cb => never_rejects (exec_task (fst (callback_args cb)))) cbs ->
  forall w,
    let w' := invoke_all cbs w in
    timers w' = timers w /\
    exists d,
      trace w' = trace w ++ d /\
      timeouts d = [] /\ gave_up d = [] /\ stderr d = [] /\
      succeeded d = map fst (started d).
Proof.
  induction 1 as [|cb cbs Hcb _ IH]; intros w; cbv zeta.
  - split; [reflexivity|]. exists []. rewrite app_nil_r. repeat split.
  - cbn [invoke_all fold_left].
    fold (invoke_all cbs (snd (run_callback cb w))).
    destruct (IH (snd (run_callback cb w))) as (T & d' & Hd' & S1 & S2 & S3 & S4).
    unfold run_callback in *.
    destruct (executeJob_outcome (fst (callback_args cb)) (snd (callback_args cb)) w)
      as (_ & _ & _ & d & Hd & Ho).
    destruct Ho as [_ Ht -> | err E _ _ _ | err E _ _ _];
      try (rewrite (Hcb (env w)) in E; discriminate).
    split; [congruence|].
    rewrite Hd, <- app_assoc in Hd'. eexists; split; [exact Hd'|].
    cbn [app timeouts gave_up stderr succeeded started flat_map snd map fst].
    fold (timeouts d') (gave_up d') (stderr d') (succeeded d') (started d').
    rewrite S1, S2, S3, S4. repeat split.
Qed.

End RegistrationUse.

Section JobsTs.

Variable cron_matches : string -> Z -> bool.

Lemma jobs_ts_tasks_fulfil (b : CronBinding Jobs.Console) :
  In b (bindings_of Jobs.jobs) ->
  never_rejects (exec_task (fst (callback_args (on_tick b)))).
Proof.
  intros Hin e. cbn in Hin.
  repeat (destruct Hin as [<- | Hin]; [reflexivity|]). destruct Hin.
Qed.

(** X8.  No job of jobs.ts can fail: neither statement of a task's [try]
    block throws, so its [catch] is never entered.  In a process whose
    bindings all come from that registry, a tick sets no timer, prints
    nothing on [console.error], gives up on nothing, and every attempt
    it begins is followed by its success message. *)
Theorem jobs_ts_never_retry (t : Z) (w : World Jobs.Console) :
  Forall (fun b => In b (bindings_of Jobs.jobs)) (cron_table w) ->
  let w' := tick cron_matches t w in
  timers w' = timers w /\
  timeouts (since w w') = [] /\
  gave_up (since w w') = [] /\
  stderr (since w w') = [] /\
  succeeded (since w w') = map fst (started (since w w')).
Proof.
  intros Hreg. cbv zeta. unfold tick.
  assert (Hcbs : Forall (fun cb => never_rejects (exec_task (fst (callback_args cb))))
                        (due_callbacks cron_matches t (cron_table w))).
  { unfold due_callbacks. apply Forall_forall. intros cb Hcb.
    apply in_map_iff in Hcb. destruct Hcb as (b & <- & Hb).
    apply filter_In in Hb. destruct Hb as [Hb _].
    apply jobs_ts_tasks_fulfil. rewrite Forall_forall in Hreg. apply Hreg, Hb. }
  destruct (invoke_all_fulfilled _ Hcbs
              (mkWorld (Z.max (now w) t) (env w) (trace w) (timers w) (cron_table w)))
    as (T & d & Hd & S1 & S2 & S3 & S4).
  cbn [trace timers] in Hd, T. rewrite (since_trace _ _ _ Hd). auto.
Qed.

End JobsTs.

Section EntryPoint.

Context {Env : Type}.
Variable jobs : list (JobParams Env).

(** X9.  The entry point registers the cron jobs exactly when
    [CRON_SERVER] is a non-empty string, whatever the string says.  When
    it does, the registry is registered once, the confirmation line
    follows the per-job lines, and the server listens afterwards; when it
    does not, no binding is made and the server still listens.  The port
    listened on is never 0: an unset, unparsable or zero [PORT] gives
    3000. *)
Theorem server_cron_gating (CRON_SERVER : option string)
        (parsed_port : option Z) (w : World Env) :
  (env_truthy CRON_SERVER = true <->
     exists c s, CRON_SERVER = Some (String c s)) /\
  (env_truthy CRON_SERVER = false ->
     server jobs CRON_SERVER parsed_port w
     = (Normal tt, [AppListen (PORT parsed_port)], w)) /\
  (env_truthy CRON_SERVER = true ->
     server jobs CRON_SERVER parsed_port w
     = (Normal tt,
        map CronEffect (registration_effects jobs (now w))
          ++ [ConsoleLogRegistered; AppListen (PORT parsed_port)],
        snd (registerAllCronJobs jobs w)) /\
     cron_table (snd (registerAllCronJobs jobs w))
     = cron_table w ++ bindings_of jobs) /\
  PORT parsed_port <> 0 /\
  (parsed_port = None \/ parsed_port = Some 0 -> PORT parsed_port = 3000).
Proof.
  repeat split.
  - destruct CRON_SERVER as [[|c s]|]; try discriminate. eauto.
  - intros (c & s & ->). reflexivity.
  - intros Hf. unfold server. rewrite Hf. reflexivity.
  - unfold server. rewrite H, forEach_registers. cbn [snd].
    rewrite since_extend, <- app_assoc. reflexivity.
  - rewrite forEach_registers. reflexivity.
  - destruct parsed_port as [v|]; cbn; [|lia].
    destruct (v =? 0) eqn:E; cbn; [lia|]. apply Z.eqb_neq. exact E.
  - intros [-> | ->]; reflexivity.
Qed.

End EntryPoint.

(* ------------------------------------------------------------------ *)
(** * The further properties at sample inputs *)

Section FurtherInstances.

Import Sample.
Local Open Scope string_scope.


Lemma failing_chain_duration_witness :
  exec_retries (exec_A (Some 3)) = Some 3 /\
  2 <= 3 /\
  timers idle = [] /\
  (forall i, (i < Z.to_nat 3)%nat ->
     rejects (exec_task (exec_A (Some 3))) (env idle) i = true) /\
  now (run_timers 2 (snd (executeJob (exec_A (Some 3)) 1 idle)))
  = 0 + (250 + (250 + (250 + 0))) + 10000 * (3 - 1).
Proof.
  assert (H : forall i, (i < Z.to_nat 3)%nat ->
            rejects (exec_task (exec_A (Some 3))) (env idle) i = true)
    by (intros i _; reflexivity).
  split; [reflexivity|]. split; [lia|]. split; [reflexivity|].
  split; [exact H|].
  apply (failing_chain_duration (exec_A (Some 3)) 3 idle 2);
    [reflexivity | lia | reflexivity | exact H | simpl; lia].
Defined.

Lemma executor_never_cancels_witness :
  In (mkTimer 10250 (RetryCallback "A" always_fails (Some 3) 1))
     (timers (snd (executeJob (exec_A (Some 3)) 1 idle))) /\
  In (mkTimer 10250 (RetryCallback "A" always_fails (Some 3) 1))
     (timers (snd (executeJob exec_B 1
                     (snd (executeJob (exec_A (Some 3)) 1 idle))))).
Proof.
  assert (H : In (mkTimer 10250 (RetryCallback "A" always_fails (Some 3) 1))
                 (timers (snd (executeJob (exec_A (Some 3)) 1 idle))))
    by (left; reflexivity).
  split; [exact H|].
  apply (proj1 (proj2 (proj2
           (executor_never_cancels exec_B 1
              (snd (executeJob (exec_A (Some 3)) 1 idle)))))).
  exact H.
Defined.

Lemma overlapping_triggers_accumulate_witness :
  always_rejects always_fails /\
  2 <= 3 /\
  List.length
    (timers (invoke_all (repeat (CronCallback "A" always_fails (Some 3)) 2) idle))
  = 2%nat.
Proof.
  assert (H : always_rejects always_fails) by (intros e; discriminate).
  split; [exact H|]. split; [lia|].
  apply (overlapping_triggers_accumulate "A" always_fails 3 2 idle H).
  lia.
Defined.

Lemma stderr_iff_task_failed_witness :
  rejection (exec_task (exec_A None) (env idle)) = Some "boom" /\
  hd_error (stderr (since idle (snd (executeJob (exec_A None) 1 idle))))
  = Some (FailedOnAttempt "A" 1 "boom").
Proof.
  split; [reflexivity|].
  apply (proj1 (proj2 (stderr_iff_task_failed (exec_A None) 1 idle))).
  reflexivity.
Defined.


Lemma jobs_ts_never_retry_witness :
  Forall (fun b => In b (bindings_of Jobs.jobs))
         (cron_table (snd (registerAllCronJobs Jobs.jobs (fresh 0 [])))) /\
  stderr
    (since (snd (registerAllCronJobs Jobs.jobs (fresh 0 [])))
           (tick (fun _ _ => true) 0
                 (snd (registerAllCronJobs Jobs.jobs (fresh 0 [])))))
  = [].
Proof.
  assert (H : Forall (fun b => In b (bindings_of Jobs.jobs))
                (cron_table (snd (registerAllCronJobs Jobs.jobs (fresh 0 []))))).
  { apply Forall_forall. intros b Hb. exact Hb. }
  split; [exact H|].
  apply (jobs_ts_never_retry (fun _ _ => true) 0
           (snd (registerAllCronJobs Jobs.jobs (fresh 0 []))) H).
Defined.

Lemma server_cron_gating_witness :
  env_truthy (Some "false") = true /\
  cron_table (snd (registerAllCronJobs registry_A idle))
  = (cron_table idle ++ bindings_of registry_A)%list /\
  env_truthy (Some EmptyString) = false /\
  server registry_A (Some EmptyString) None idle
  = (Normal tt, [AppListen 3000], idle).
Proof.
  split; [reflexivity|]. split.
  - apply (proj1 (proj2 (proj2
             (server_cron_gating registry_A (Some "false") None idle)))).
    reflexivity.
  - split; [reflexivity|].
    apply (proj1 (proj2
             (server_cron_gating registry_A (Some EmptyString) None idle))).
    reflexivity.
Defined.

End FurtherInstances.
